(** * Two-way replication between the MongoDB models and Firestore

    A shallow embedding of [src/sync/mongoToFirestore.js] and
    [src/sync/firestoreToMongo.js]: the document normalizers, the backfill
    loops, the change handlers and the two start functions, together with
    the properties the design document states about them. *)

From Stdlib Require Import ZArith Ascii String List Bool.
From stdpp Require Import base option list gmap strings fin_maps pretty.

Set Warnings "-register-all".
Local Open Scope string_scope.
Local Open Scope list_scope.

(** ** JavaScript values and plain objects *)

Module JS.

(** The values a stored document is built from.  [VObjectId] is a bson
    ObjectId, written by its hexadecimal form; [VDate] is a temporal value.
    A plain object is the list of its own enumerable entries, in the order
    [Object.entries] reports them. *)
Inductive value : Type :=
| VNull
| VBool (b : bool)
| VNum (n : Z)
| VStr (s : string)
| VObjectId (hex : string)
| VDate (ms : Z)
| VArr (items : list value)
| VObj (entries : list (string * value)).

Abbreviation Obj := (list (string * value)).

(** [o[k]]; [None] stands for [undefined]. *)
Fixpoint get_field (k : string) (o : Obj) : option value :=
  match o with
  | [] => None
  | (k', v) :: o' => if String.eqb k k' then Some v else get_field k o'
  end.

(** [o[k] = v]: an existing property keeps its place, a new one goes last. *)
Fixpoint set_field (k : string) (v : value) (o : Obj) : Obj :=
  match o with
  | [] => [(k, v)]
  | (k', v') :: o' =>
      if String.eqb k k' then (k, v) :: o' else (k', v') :: set_field k v o'
  end.

(** [delete o[k]], and the rest pattern [{ k, ...rest } = o]. *)
Fixpoint delete_field (k : string) (o : Obj) : Obj :=
  match o with
  | [] => []
  | (k', v) :: o' =>
      if String.eqb k k' then delete_field k o' else (k', v) :: delete_field k o'
  end.

(** [{ ...acc, ...src }]: the entries of [src] are assigned in order. *)
Definition spread (src acc : Obj) : Obj :=
  fold_left (fun a kv => set_field (fst kv) (snd kv) a) src acc.

Definition keys (o : Obj) : list string := map fst o.

(** [x.toString()] for the receivers this program calls it on: an ObjectId
    gives its 24-digit hexadecimal form and a string gives itself.  [None]
    is the TypeError of calling it on [undefined] or [null]; the other
    receivers never stand in an [_id] position and are not given a string
    form here. *)
Definition toString (v : option value) : option string :=
  match v with
  | Some (VObjectId h) => Some h
  | Some (VStr s) => Some s
  | _ => None
  end.

(** [{ ...v }]: the own entries of an object; a value that is not an
    object contributes none. *)
Definition entries_of (v : value) : Obj :=
  match v with
  | VObj es => es
  | _ => []
  end.

(** [o?.[k] === s] *)
Definition field_is (k s : string) (o : Obj) : bool :=
  match get_field k o with
  | Some (VStr s') => String.eqb s' s
  | _ => false
  end.

End JS.
Export JS.

(** ** Provenance tags *)

Definition SYNCED_FROM : string := "_syncedFrom".
Definition MONGO : string := "mongo".
Definition FIRESTORE : string := "firestore".

(** [doc?._syncedFrom === t] *)
Definition syncedFrom (t : string) (doc : option Obj) : bool :=
  match doc with
  | Some o => field_is SYNCED_FROM t o
  | None => false
  end.

(** [{ ...doc, _syncedFrom: t }] *)
Definition withTag (t : string) (doc : Obj) : Obj :=
  set_field SYNCED_FROM (VStr t) (spread doc []).

(** ** Errors a store call or a normalizer can raise *)

Inductive Err : Type :=
| TypeError
| CastError
| DuplicateKey
| ImmutableField
| ConnectionError.

(** ** The normalizer of mongoToFirestore.js *)

Module MongoToFirestore.

(** The inner [cleanObject] of [cleanDocument]: primitives are returned as
    they are, an ObjectId becomes its string, an array is mapped, a Date is
    returned, and any other object is rebuilt entry by entry. *)
Fixpoint cleanObject (obj : value) : value :=
  match obj with
  | VNull | VBool _ | VNum _ | VStr _ => obj
  | VObjectId h => VStr h
  | VArr items => VArr (map cleanObject items)
  | VDate _ => obj
  | VObj entries =>
      VObj ((fix assign (es : Obj) (cleanedObj : Obj) {struct es} : Obj :=
               match es with
               | [] => cleanedObj
               | (key, v) :: es' =>
                   assign es' (set_field key (cleanObject v) cleanedObj)
               end) entries [])
  end.

(** The loop of the last branch, named. *)
Definition cleanEntries (entries : Obj) (cleanedObj : Obj) : Obj :=
  fold_left (fun acc kv => set_field (fst kv) (cleanObject (snd kv)) acc)
            entries cleanedObj.

(** What the loop makes of one entry. *)
Definition cleanEntry (kv : string * value) : string * value :=
  (fst kv, cleanObject (snd kv)).

(** [cleanDocument(doc)]: [{}] for a missing document; otherwise [__v] and
    [_id] are taken out, [id] is put first and the rest is spread over it,
    and the whole is passed through [cleanObject]. *)
Definition cleanDocument (doc : option Obj) : Err + Obj :=
  match doc with
  | None => inr []
  | Some d =>
      let _id := get_field "_id" d in
      let rest := delete_field "__v" (delete_field "_id" d) in
      match toString _id with
      | None => inl TypeError
      | Some s =>
          let cleaned := spread rest [("id", VStr s)] in
          inr (entries_of (cleanObject (VObj cleaned)))
      end
  end.

End MongoToFirestore.

(** ** The primary key grammar *)

(** [[0-9a-fA-F]] *)
Definition is_hex_digit (c : ascii) : bool :=
  let n := nat_of_ascii c in
  (Nat.leb 48 n && Nat.leb n 57)
  || (Nat.leb 97 n && Nat.leb n 102)
  || (Nat.leb 65 n && Nat.leb n 70).

(** [/^[0-9a-fA-F]{24}$/.test(id)] *)
Definition isValidObjectId (id : string) : bool :=
  Nat.eqb (String.length id) 24
  && forallb is_hex_digit (list_ascii_of_string id).

(** ** The normalizer of firestoreToMongo.js *)

Module FirestoreToMongo.

(** A Firestore document snapshot: its key and what [doc.data()] returns. *)
Record DocSnap : Type := mkDoc { doc_id : string; doc_data : Obj }.

(** What [Object.entries] finds on a value of this store that is neither an
    array nor a map: a Firestore timestamp shows its two counters, and any
    other such value shows nothing. *)
Definition own_entries (v : value) : Obj :=
  match v with
  | VObj es => es
  | VDate ms =>
      [("_seconds", VNum (ms / 1000)); ("_nanoseconds", VNum (ms mod 1000 * 1000000))]
  | _ => []
  end.

Definition is_string (v : value) : bool :=
  match v with VStr _ => true | _ => false end.

(** One turn of the [for ... of Object.entries(obj)] loop, given the
    recursive call. *)
Definition assignCleaned (rec : value -> value) (key : string) (v : value)
    (cleaned : Obj) : Obj :=
  if String.eqb key "_id" && is_string v then set_field key v cleaned
  else if String.eqb key "createdBy" && is_string v then set_field key v cleaned
  else set_field key (rec v) cleaned.

(** The inner [cleanObject] of [cleanFirestoreDoc]: primitives are returned,
    arrays are mapped, every other object is rebuilt from its entries. *)
Fixpoint cleanObject (obj : value) : value :=
  match obj with
  | VNull | VBool _ | VNum _ | VStr _ => obj
  | VArr items => VArr (map cleanObject items)
  | VObj entries =>
      VObj ((fix assign (es : Obj) (cleaned : Obj) {struct es} : Obj :=
               match es with
               | [] => cleaned
               | (key, v) :: es' =>
                   assign es' (assignCleaned cleanObject key v cleaned)
               end) entries [])
  | VDate _ | VObjectId _ =>
      VObj (fold_left (fun cleaned kv => set_field (fst kv) (snd kv) cleaned)
                      (own_entries obj) [])
  end.

(** [cleanFirestoreDoc(doc)] *)
Definition cleanFirestoreDoc (doc : DocSnap) : Obj :=
  let data := doc_data doc in
  let data := delete_field "id" data in
  entries_of (cleanObject (VObj data)).

End FirestoreToMongo.

(** ** The two stores

    A Firestore collection maps a document key to the document's data.  A
    MongoDB collection maps the hexadecimal form of [_id] to the record's
    other fields.  The model is schema-less: a record holds the fields it
    was written with.  Each store has a flag telling whether it can be
    reached; every call on an unreachable store is rejected with
    [ConnectionError].  What a lookup by a key outside the primary key
    grammar does is left to the model layer: with [strictKeys] it is
    rejected with [CastError], without it the key simply finds nothing. *)

Module Store.

Inductive Direction : Type := MongoToFs | FsToMongo.

Record Db : Type := mkDb {
  mongo : gmap string Obj;
  fs : gmap string Obj;
  mongoUp : bool;
  fsUp : bool;
  strictKeys : bool;          (* lookups by an ill-formed key are rejected *)
  nextId : N;                 (* counter of the ObjectId generator *)
  listeners : list Direction  (* feeds a handler is subscribed to *)
}.

Definition set_mongo (m : gmap string Obj) (db : Db) : Db :=
  mkDb m (fs db) (mongoUp db) (fsUp db) (strictKeys db) (nextId db) (listeners db).
Definition set_fs (f : gmap string Obj) (db : Db) : Db :=
  mkDb (mongo db) f (mongoUp db) (fsUp db) (strictKeys db) (nextId db) (listeners db).
Definition bump_nextId (db : Db) : Db :=
  mkDb (mongo db) (fs db) (mongoUp db) (fsUp db) (strictKeys db)
       (N.succ (nextId db)) (listeners db).
Definition add_listener (d : Direction) (db : Db) : Db :=
  mkDb (mongo db) (fs db) (mongoUp db) (fsUp db) (strictKeys db) (nextId db)
       (listeners db ++ [d]).

(** The model layer accepts [id] as the key of a lookup. *)
Definition castable (id : string) (db : Db) : bool :=
  negb (strictKeys db) || isValidObjectId id.

(** *** ObjectId generation: 24 hexadecimal digits of a counter *)

Definition hex_char (d : N) : ascii :=
  if (d <? 10)%N then ascii_of_N (48 + d) else ascii_of_N (87 + d).

Fixpoint hex_digits (width : nat) (n : N) (acc : list ascii) : list ascii :=
  match width with
  | O => acc
  | S w => hex_digits w (n / 16)%N (hex_char (n mod 16)%N :: acc)
  end.

Definition newObjectId (n : N) : string :=
  string_of_list_ascii (hex_digits 24 n []).

(** The key the next [create] without an [_id] will get. *)
Definition mintedKey (db : Db) : string := newObjectId (nextId db).

(** *** MongoDB model calls *)

(** A record as [.lean()] returns it. *)
Definition lean (key : string) (fields : Obj) : Obj :=
  ("_id", VObjectId key) :: fields.

Definition mongo_find (m : gmap string Obj) : list Obj :=
  map (fun kf => lean (fst kf) (snd kf)) (map_to_list m).

Definition mongo_findById (id : string) (m : gmap string Obj) : option Obj :=
  lean id <$> m !! id.

(** [model.create(doc)]: an [_id] given in [doc] must cast to an ObjectId
    and be unused; without one the generator supplies the key. *)
Definition mongo_create (doc : Obj) (db : Db) : Db * (Err + Obj) :=
  match get_field "_id" doc with
  | None =>
      let key := mintedKey db in
      let db' := bump_nextId db in
      match mongo db !! key with
      | Some _ => (db', inl DuplicateKey)
      | None => (set_mongo (<[key := doc]> (mongo db)) db', inr (lean key doc))
      end
  | Some v =>
      match toString (Some v) with
      | None => (db, inl CastError)
      | Some key =>
          if isValidObjectId key then
            let fields := delete_field "_id" doc in
            match mongo db !! key with
            | Some _ => (db, inl DuplicateKey)
            | None => (set_mongo (<[key := fields]> (mongo db)) db, inr (lean key fields))
            end
          else (db, inl CastError)
      end
  end.

(** [model.findByIdAndUpdate(id, update)]: the fields of [update] are set on
    the record found; nothing happens when none is found.  An [_id] in
    [update] may only repeat the record's own. *)
Definition mongo_findByIdAndUpdate (id : string) (update : Obj) (db : Db)
    : Db * (Err + option Obj) :=
  match mongo db !! id with
  | None => (db, inr None)
  | Some fields =>
      let same_id :=
        match get_field "_id" update with
        | None => true
        | Some v => match toString (Some v) with
                    | Some s => String.eqb s id
                    | None => false
                    end
        end in
      if same_id then
        (set_mongo (<[id := spread (delete_field "_id" update) fields]> (mongo db)) db,
         inr (Some (lean id fields)))
      else (db, inl ImmutableField)
  end.

Definition mongo_findByIdAndDelete (id : string) (db : Db) : Db :=
  set_mongo (delete id (mongo db)) db.

(** *** Firestore calls *)

Definition fs_docs (f : gmap string Obj) : list FirestoreToMongo.DocSnap :=
  map (fun kd => FirestoreToMongo.mkDoc (fst kd) (snd kd)) (map_to_list f).

End Store.
Export Store.

(** ** Asynchronous programs

    An [async] function is a tree: it ends with a value or a thrown error,
    performs a synchronous effect (a console line, a subscription) and goes
    on, or awaits a store call and goes on with its outcome. *)

Module Async.

Inductive Mark : Type :=
| Rotate | Package | Green | Yellow | Red | Check | Cross | Skip | Warning.

Record LogLine : Type := mkLog { mark : Mark; text : string }.

Inductive Call : Type -> Type :=
| FsGet (id : string) : Call (option Obj)
| FsSet (id : string) (data : Obj) : Call unit
| FsDelete (id : string) : Call unit
| FsGetAll : Call (list FirestoreToMongo.DocSnap)
| MFind : Call (list Obj)
| MFindById (id : string) : Call (option Obj)
| MCreate (doc : Obj) : Call Obj
| MFindByIdAndUpdate (id : string) (update : Obj) : Call (option Obj)
| MFindByIdAndDelete (id : string) : Call unit.

Inductive Prog (R : Type) : Type :=
| Ret (r : R)
| Throw (e : Err)
| Say (l : LogLine) (k : Prog R)
| Subscribe (d : Direction) (k : Prog R)
| Await (X : Type) (c : Call X) (k : Err + X -> Prog R).

Arguments Ret {R} r.
Arguments Throw {R} e.
Arguments Say {R} l k.
Arguments Subscribe {R} d k.
Arguments Await {R X} c k.

Fixpoint bind {A B : Type} (p : Prog A) (f : A -> Prog B) : Prog B :=
  match p with
  | Ret a => f a
  | Throw e => Throw e
  | Say l k => Say l (bind k f)
  | Subscribe d k => Subscribe d (bind k f)
  | Await c k => Await c (fun r => bind (k r) f)
  end.

(** [try { p } catch (err) { h err }] *)
Fixpoint try_catch {A : Type} (p : Prog A) (h : Err -> Prog A) : Prog A :=
  match p with
  | Ret a => Ret a
  | Throw e => h e
  | Say l k => Say l (try_catch k h)
  | Subscribe d k => Subscribe d (try_catch k h)
  | Await c k => Await c (fun r => try_catch (k r) h)
  end.

(** [await c] *)
Definition await {X : Type} (c : Call X) : Prog X :=
  Await c (fun r => match r with inl e => Throw e | inr x => Ret x end).

(** [console.log] / [console.error] *)
Definition say (m : Mark) (t : string) : Prog unit := Say (mkLog m t) (Ret tt).

(** A synchronous computation that may throw. *)
Definition lift {A : Type} (r : Err + A) : Prog A :=
  match r with inl e => Throw e | inr a => Ret a end.

(** [for (const x of xs) { body x }] *)
Fixpoint for_of {A : Type} (xs : list A) (body : A -> Prog unit) : Prog unit :=
  match xs with
  | [] => Ret tt
  | x :: xs' => bind (body x) (fun _ => for_of xs' body)
  end.

End Async.
Export Async.

Declare Scope prog_scope.
Delimit Scope prog_scope with prog.
Notation "x <- p ;; q" := (bind p (fun x => q))
  (at level 100, p at next level, right associativity) : prog_scope.
Notation "p ;; q" := (bind p (fun _ => q))
  (at level 100, right associativity) : prog_scope.

Local Open Scope prog_scope.

(** [`${doc._id}`] in a console line *)
Definition show_id (doc : Obj) : string :=
  default "undefined" (toString (get_field "_id" doc)).

(** ** mongoToFirestore.js *)

Module M2F.
Import MongoToFirestore.

(** The [operationType] of a change-stream event. *)
Inductive OperationType : Type :=
| insert | update | replace | delete
| drop | rename | dropDatabase | invalidate.

(** A change-stream event, as the handler destructures it. *)
Record Change : Type := mkChange {
  operationType : OperationType;
  documentKey : option Obj;
  fullDocument : option Obj
}.

(** [documentKey._id.toString()] *)
Definition changeId (change : Change) : Err + string :=
  match documentKey change with
  | None => inl TypeError
  | Some dk => match toString (get_field "_id" dk) with
               | Some s => inr s
               | None => inl TypeError
               end
  end.

(** The body of the initial-sync loop, for one record [d] of [allDocs]. *)
Definition initialSyncDoc (collectionName : string) (d : Obj) : Prog unit :=
  try_catch
    (id <- lift (match toString (get_field "_id" d) with
                 | Some s => inr s
                 | None => inl TypeError
                 end) ;;
     docSnap <- await (FsGet id) ;;
     match docSnap with
     | None =>
         cleaned <- lift (cleanDocument (Some d)) ;;
         await (FsSet id (withTag MONGO cleaned)) ;;
         say Green ("Initial sync: " ++ id)
     | Some _ => Ret tt
     end)
    (fun err => say Cross ("Error in initial sync for " ++ collectionName)).

(** The async body started for each ["change"] event. *)
Definition onChange (collectionName : string) (change : Change) : Prog unit :=
  try_catch
    (id <- lift (changeId change) ;;
     if syncedFrom FIRESTORE (fullDocument change) then Ret tt
     else
       match operationType change with
       | insert =>
           cleaned <- lift (cleanDocument (fullDocument change)) ;;
           await (FsSet id (withTag MONGO cleaned)) ;;
           say Green ("Firestore insert (" ++ collectionName ++ "): " ++ id)
       | update | replace =>
           updatedDoc <- await (MFindById id) ;;
           if syncedFrom FIRESTORE updatedDoc then Ret tt
           else
             cleaned <- lift (cleanDocument updatedDoc) ;;
             await (FsSet id (withTag MONGO cleaned)) ;;
             say Yellow ("Firestore update (" ++ collectionName ++ "): " ++ id)
       | delete =>
           await (FsDelete id) ;;
           say Red ("Firestore delete (" ++ collectionName ++ "): " ++ id)
       | _ => Ret tt
       end)
    (fun err => say Cross ("Mongo->Firestore sync error for " ++ collectionName)).

(** [syncModelToFirestore(model, collectionName)], up to the subscription;
    the events are then handled by [onChange]. *)
Definition syncModelToFirestore (collectionName : string) : Prog unit :=
  say Rotate ("Starting MongoDB -> Firestore sync for " ++ collectionName ++ "...") ;;
  allDocs <- await MFind ;;
  say Package ("Found " ++ pretty (length allDocs) ++ " existing "
               ++ collectionName ++ " in MongoDB.") ;;
  for_of allDocs (initialSyncDoc collectionName) ;;
  say Check ("Initial sync complete (Mongo -> Firestore) for '" ++ collectionName ++ "'") ;;
  Subscribe MongoToFs
    (say Check ("MongoDB -> Firestore listener active for '" ++ collectionName ++ "'")).

End M2F.

(** ** firestoreToMongo.js *)

Module F2M.
Import FirestoreToMongo.

Inductive ChangeType : Type := added | modified | removed.

(** One element of [snapshot.docChanges()]. *)
Record DocChange : Type := mkDocChange { type : ChangeType; doc : DocSnap }.

(** [{ _id: id, ...data, _syncedFrom: "firestore" }] *)
Definition withIdAndTag (id : string) (data : Obj) : Obj :=
  set_field SYNCED_FROM (VStr FIRESTORE) (spread data [("_id", VStr id)]).

(** The body of the initial-snapshot loop, for one document. *)
Definition initialSyncDoc (collectionName : string) (doc : DocSnap) : Prog unit :=
  let docId := doc_id doc in
  let rawData := doc_data doc in
  if field_is SYNCED_FROM MONGO rawData then
    say Skip ("Skipping document already synced from MongoDB: " ++ docId)
  else
    let data := cleanFirestoreDoc doc in
    let isValid := isValidObjectId docId in
    try_catch
      (existing <- await (MFindById docId) ;;
       match existing with
       | None =>
           if isValid then
             await (MCreate (withIdAndTag docId data)) ;;
             say Green ("Initial Mongo insert (" ++ collectionName ++ "): " ++ docId)
           else
             newDoc <- await (MCreate (withTag FIRESTORE data)) ;;
             say Green ("Initial Mongo insert (" ++ collectionName
                        ++ ") with new ID: " ++ show_id newDoc)
       | Some _ =>
           await (MFindByIdAndUpdate docId (withTag FIRESTORE data)) ;;
           say Yellow ("Initial Mongo update (" ++ collectionName ++ "): " ++ docId)
       end)
      (fun error => say Cross ("Error syncing document " ++ docId ++ " to MongoDB")).

(** The async body started for each element of [snapshot.docChanges()]. *)
Definition onDocChange (collectionName : string) (change : DocChange) : Prog unit :=
  let doc := doc change in
  let rawData := doc_data doc in
  let id := doc_id doc in
  if field_is SYNCED_FROM MONGO rawData then
    say Skip ("Skipping document already synced from MongoDB: " ++ id)
  else
    let data := cleanFirestoreDoc doc in
    let isValid := isValidObjectId id in
    try_catch
      match type change with
      | added =>
          existing <- await (MFindById id) ;;
          match existing with
          | None =>
              if isValid then
                await (MCreate (withIdAndTag id data)) ;;
                say Green ("Firestore->Mongo insert (" ++ collectionName ++ "): " ++ id)
              else
                newDoc <- await (MCreate (withTag FIRESTORE data)) ;;
                say Green ("Firestore->Mongo insert (" ++ collectionName
                           ++ ") with new ID: " ++ show_id newDoc)
          | Some _ => Ret tt
          end
      | modified =>
          if isValid then
            existing <- await (MFindById id) ;;
            match existing with
            | Some _ =>
                await (MFindByIdAndUpdate id (withTag FIRESTORE data)) ;;
                say Yellow ("Firestore->Mongo update (" ++ collectionName ++ "): " ++ id)
            | None =>
                say Warning ("Document " ++ id ++ " not found in MongoDB for update")
            end
          else
            say Warning ("Skipping update for invalid ObjectId format: " ++ id)
      | removed =>
          if isValid then
            await (MFindByIdAndDelete id) ;;
            say Red ("Firestore->Mongo delete (" ++ collectionName ++ "): " ++ id)
          else
            say Warning ("Skipping delete for invalid ObjectId format: " ++ id)
      end
      (fun err => say Cross ("Firestore->Mongo sync error (" ++ collectionName ++ ")")).

(** [syncFirestoreToMongo(collectionName, model)], up to the subscription;
    the changes of each later snapshot are handled by [onDocChange]. *)
Definition syncFirestoreToMongo (collectionName : string) : Prog unit :=
  say Rotate ("Starting Firestore -> MongoDB sync for '" ++ collectionName ++ "'...") ;;
  snapshot <- await FsGetAll ;;
  say Package ("Found " ++ pretty (length snapshot) ++ " documents in Firestore '"
               ++ collectionName ++ "'.") ;;
  for_of snapshot (initialSyncDoc collectionName) ;;
  Subscribe FsToMongo
    (say Check ("Firestore -> MongoDB listener active for '" ++ collectionName ++ "'")).

End F2M.

(** ** Running programs against the stores *)

Module Exec.

(** One store call, carried out atomically. *)
Definition exec {X : Type} (c : Call X) (db : Db) : Db * (Err + X) :=
  match c in Call T return Db * (Err + T) with
  | FsGet id =>
      if fsUp db then (db, inr (fs db !! id)) else (db, inl ConnectionError)
  | FsSet id data =>
      if fsUp db then (set_fs (<[id := data]> (fs db)) db, inr tt)
      else (db, inl ConnectionError)
  | FsDelete id =>
      if fsUp db then (set_fs (base.delete id (fs db)) db, inr tt)
      else (db, inl ConnectionError)
  | FsGetAll =>
      if fsUp db then (db, inr (fs_docs (fs db))) else (db, inl ConnectionError)
  | MFind =>
      if mongoUp db then (db, inr (mongo_find (mongo db)))
      else (db, inl ConnectionError)
  | MFindById id =>
      if mongoUp db then
        if castable id db then (db, inr (mongo_findById id (mongo db)))
        else (db, inl CastError)
      else (db, inl ConnectionError)
  | MCreate doc =>
      if mongoUp db then mongo_create doc db else (db, inl ConnectionError)
  | MFindByIdAndUpdate id upd =>
      if mongoUp db then
        if castable id db then mongo_findByIdAndUpdate id upd db
        else (db, inl CastError)
      else (db, inl ConnectionError)
  | MFindByIdAndDelete id =>
      if mongoUp db then
        if castable id db then (mongo_findByIdAndDelete id db, inr tt)
        else (db, inl CastError)
      else (db, inl ConnectionError)
  end.

(** The outcome of a program: the stores after it, the console lines it
    wrote, and its value or the error it threw. *)
Record Outcome (R : Type) : Type := mkOutcome {
  after : Db;
  console : list LogLine;
  result : Err + R
}.
Arguments mkOutcome {R} _ _ _.
Arguments after {R} _.
Arguments console {R} _.
Arguments result {R} _.

Definition logged {R : Type} (l : LogLine) (o : Outcome R) : Outcome R :=
  mkOutcome (after o) (l :: console o) (result o).

(** A program run alone, every awaited call answered at once. *)
Fixpoint run {R : Type} (p : Prog R) (db : Db) : Outcome R :=
  match p with
  | Ret r => mkOutcome db [] (inr r)
  | Throw e => mkOutcome db [] (inl e)
  | Say l k => logged l (run k db)
  | Subscribe d k => run k (add_listener d db)
  | Await c k => let (db', r) := exec c db in run (k r) db'
  end.

End Exec.
Export Exec.

(** ** The feeds: handlers that are started and not awaited

    The listener callbacks call an async function and drop its promise.
    Such a call runs the function up to its first [await] and returns; the
    rest runs when the awaited call is answered.  A feed therefore holds
    the handlers that were started and have not finished. *)

Module Feed.

(** A handler waiting for a store call. *)
Inductive Task : Type :=
| Suspended (X : Type) (c : Call X) (k : Err + X -> Prog unit).
Arguments Suspended {X} c k.

Record State : Type := mkState {
  stores : Db;
  out : list LogLine;
  pending : list Task
}.

(** Run [p] up to its first [await]. *)
Fixpoint advance (p : Prog unit) (st : State) : State :=
  match p with
  | Ret _ | Throw _ => st
  | Say l k => advance k (mkState (stores st) (out st ++ [l]) (pending st))
  | Subscribe d k =>
      advance k (mkState (add_listener d (stores st)) (out st) (pending st))
  | Await c k => mkState (stores st) (out st) (pending st ++ [Suspended c k])
  end.

(** The listener callback: [(async () => { ... })()]. *)
Definition emit {E : Type} (handler : E -> Prog unit) (ev : E) (st : State) : State :=
  advance (handler ev) st.

(** [snapshot.docChanges().forEach(...)] and successive ["change"] events. *)
Definition emit_all {E : Type} (handler : E -> Prog unit) (evs : list E)
    (st : State) : State :=
  fold_left (fun s ev => emit handler ev s) evs st.

(** The call the [i]-th waiting handler awaits is answered. *)
Definition resume (i : nat) (st : State) : State :=
  match pending st !! i with
  | None => st
  | Some (Suspended c k) =>
      let (db', r) := exec c (stores st) in
      advance (k r) (mkState db' (out st) (base.delete i (pending st)))
  end.

(** A schedule: which waiting handler is answered next. *)
Definition play (schedule : list nat) (st : State) : State :=
  fold_left (fun s i => resume i s) schedule st.

(** Each event handled to its end before the next one is taken. *)
Definition one_at_a_time {E : Type} (handler : E -> Prog unit) (evs : list E)
    (db : Db) : Db :=
  fold_left (fun d ev => after (run (handler ev) d)) evs db.

End Feed.

(** ** The start functions *)

Module Startup.

(** The stores of every collection, by collection name. *)
Definition World : Type := string -> Db.

Definition at_binding (name : string) (db : Db) (w : World) : World :=
  fun n => if String.eqb n name then db else w n.

(** [await sync(name)] inside a start function: run on that collection's
    stores. *)
Definition await_sync (sync : string -> Prog unit) (name : string) (w : World)
    : World * list LogLine * (Err + unit) :=
  let o := run (sync name) (w name) in
  (at_binding name (after o) w, console o, result o).

(** [await a; await b; ...]: the first rejection ends the sequence. *)
Fixpoint await_each (sync : string -> Prog unit) (names : list string) (w : World)
    : World * list LogLine * (Err + unit) :=
  match names with
  | [] => (w, [], inr tt)
  | name :: rest =>
      match await_sync sync name w with
      | (w', ls, inl e) => (w', ls, inl e)
      | (w', ls, inr _) =>
          let '(w'', ls', r) := await_each sync rest w' in (w'', ls ++ ls', r)
      end
  end.

Definition bindings : list string := ["students"; "tests"; "studentTestAttempts"].

(** [try { await ...; await ...; await ... } catch (err) { console.error }] *)
Definition start_with (sync : string -> Prog unit) (failure : string) (w : World)
    : World * list LogLine :=
  match await_each sync bindings w with
  | (w', ls, inr _) => (w', ls)
  | (w', ls, inl e) => (w', ls ++ [mkLog Cross failure])
  end.

Definition startMongoToFirestoreSync : World -> World * list LogLine :=
  start_with M2F.syncModelToFirestore "Failed to start Mongo->Firestore sync".

Definition startFirestoreToMongoSync : World -> World * list LogLine :=
  start_with F2M.syncFirestoreToMongo "Failed to start Firestore->Mongo sync".

End Startup.

(** ** Vocabulary of the stated properties *)

(** Every object inside [v] has pairwise distinct property names, as every
    JavaScript object has. *)
Fixpoint well_formed (v : value) : bool :=
  match v with
  | VArr items => forallb well_formed items
  | VObj entries =>
      bool_decide (NoDup (map fst entries))
      && forallb (fun kv => well_formed (snd kv)) entries
  | _ => true
  end.

(** An ObjectId occurs somewhere inside [v]. *)
Fixpoint contains_ObjectId (v : value) : bool :=
  match v with
  | VObjectId _ => true
  | VArr items => existsb contains_ObjectId items
  | VObj entries => existsb (fun kv => contains_ObjectId (snd kv)) entries
  | _ => false
  end.

(** The secondary shape of a value, in the words of the design document:
    a reference becomes its string token, a temporal value is kept,
    sequences and mappings are transformed element by element, and every
    other value is kept. *)
Inductive secondary_shape : value -> value -> Prop :=
| shape_reference h : secondary_shape (VObjectId h) (VStr h)
| shape_temporal ms : secondary_shape (VDate ms) (VDate ms)
| shape_sequence xs ys :
    Forall2 secondary_shape xs ys -> secondary_shape (VArr xs) (VArr ys)
| shape_mapping es fs :
    Forall2 (fun e f => fst e = fst f /\ secondary_shape (snd e) (snd f)) es fs ->
    secondary_shape (VObj es) (VObj fs)
| shape_null : secondary_shape VNull VNull
| shape_bool b : secondary_shape (VBool b) (VBool b)
| shape_num n : secondary_shape (VNum n) (VNum n)
| shape_str s : secondary_shape (VStr s) (VStr s).

(** The two stores, and the tag each one's replicator stamps on what it
    writes to the other. *)
Inductive StoreName : Type := Primary | Secondary.

Definition tag_of (s : StoreName) : string :=
  match s with Primary => MONGO | Secondary => FIRESTORE end.

Definition opposite (s : StoreName) : StoreName :=
  match s with Primary => Secondary | Secondary => Primary end.

(** An event of either feed, with the handler that feed starts for it. *)
Inductive FeedEvent : Type :=
| PrimaryEvent (change : M2F.Change)
| SecondaryEvent (change : F2M.DocChange).

Definition origin (ev : FeedEvent) : StoreName :=
  match ev with PrimaryEvent _ => Primary | SecondaryEvent _ => Secondary end.

Definition handler (collectionName : string) (ev : FeedEvent) : Prog unit :=
  match ev with
  | PrimaryEvent change => M2F.onChange collectionName change
  | SecondaryEvent change => F2M.onDocChange collectionName change
  end.

(** The record the event carries bears the tag of store [s]. *)
Definition carries_tag (s : StoreName) (ev : FeedEvent) : bool :=
  match ev with
  | PrimaryEvent change => syncedFrom (tag_of s) (M2F.fullDocument change)
  | SecondaryEvent change =>
      field_is SYNCED_FROM (tag_of s) (FirestoreToMongo.doc_data (F2M.doc change))
  end.

(** The program reaches its end without awaiting any store call. *)
Fixpoint awaits_nothing {R : Type} (p : Prog R) : bool :=
  match p with
  | Ret _ | Throw _ => true
  | Say _ k | Subscribe _ k => awaits_nothing k
  | Await _ _ => false
  end.

(** The secondary document the primary backfill writes for a record. *)
Definition mirror_of (key : string) (fields : Obj) : Obj :=
  match MongoToFirestore.cleanDocument (Some (lean key fields)) with
  | inr cleaned => withTag MONGO cleaned
  | inl _ => []
  end.

(** Write [data] under [key] unless a document is already there. *)
Definition create_if_absent (key : string) (data : Obj) (f : gmap string Obj)
    : gmap string Obj :=
  match f !! key with
  | None => <[key := data]> f
  | Some _ => f
  end.

(** The secondary store after a pass of create-if-absent over [records]. *)
Definition mirrored (records : list (string * Obj)) (f : gmap string Obj)
    : gmap string Obj :=
  fold_left (fun acc kf => create_if_absent (fst kf) (mirror_of (fst kf) (snd kf)) acc)
            records f.

(** The program subscribes to no feed, whatever its store calls answer. *)
Fixpoint subscribes_nothing {R : Type} (p : Prog R) : Prop :=
  match p with
  | Ret _ | Throw _ => True
  | Say _ k => subscribes_nothing k
  | Subscribe _ _ => False
  | Await _ k => forall r, subscribes_nothing (k r)
  end.

(** Every binding up to position [i] of the list [names] satisfies [ok]. *)
Definition all_up_to (ok : Db -> bool) (names : list string) (w : Startup.World)
    (i : nat) : Prop :=
  forall j name, j <= i -> names !! j = Some name -> ok (w name) = true.

(** The store call a freshly started handler is left waiting for, if any. *)
Fixpoint first_await (p : Prog unit) : option Feed.Task :=
  match p with
  | Ret _ | Throw _ => None
  | Say _ k | Subscribe _ k => first_await k
  | Await c k => Some (Feed.Suspended c k)
  end.

(** ** Sample data *)

Module Sample.

Definition key_a : string := "64b7f0c2a1d3e4f5a6b7c8d9".
Definition key_b : string := "64b7f0c2a1d3e4f5a6b7c8da".
Definition foreign_key : string := "teacher-fall-2024".

(** Both stores reachable and empty; ill-formed keys find nothing. *)
Definition empty_db : Db := mkDb ∅ ∅ true true false 0 [].


Definition with_mongo (records : list (string * Obj)) (db : Db) : Db :=
  set_mongo (list_to_map records) db.
Definition with_fs (docs : list (string * Obj)) (db : Db) : Db :=
  set_fs (list_to_map docs) db.

Definition ann : Obj := [("firstName", VStr "Ann"); ("__v", VNum 0)].
Definition bob : Obj := [("firstName", VStr "Bob")].

Definition document_key (key : string) : option Obj := Some [("_id", VObjectId key)].

(** A primary insert whose document is tagged [mongo], and a secondary
    document tagged [firestore]: each carries the tag of its own store. *)
Definition insert_tagged_mongo : FeedEvent :=
  PrimaryEvent (M2F.mkChange M2F.insert (document_key key_a)
                  (Some (lean key_a (("_syncedFrom", VStr "mongo") :: bob)))).
Definition added_tagged_firestore : FeedEvent :=
  SecondaryEvent (F2M.mkDocChange F2M.added
                    (FirestoreToMongo.mkDoc key_a (("_syncedFrom", VStr "firestore") :: bob))).

Definition update_tagged_firestore : FeedEvent :=
  PrimaryEvent (M2F.mkChange M2F.replace (document_key key_a)
                  (Some (lean key_a (("_syncedFrom", VStr "firestore") :: bob)))).

(** A student record with a reference, a list and a sub-document. *)
Definition enrolled : Obj :=
  lean key_a
    [("firstName", VStr "Ann"); ("__v", VNum 0);
     ("createdBy", VObjectId key_b);
     ("attempts", VArr [VObjectId key_b; VNum 3]);
     ("settings", VObj [("darkMode", VBool false); ("since", VDate 1700000000000)])].

(** A record that has a property named [id] of its own. *)
Definition with_own_id : Obj := lean key_a [("id", VStr "S-001")].

Definition snap (key : string) (data : Obj) : FirestoreToMongo.DocSnap :=
  FirestoreToMongo.mkDoc key data.

(** A primary store holding Ann under [key_a]. *)
Definition ann_in_mongo : Db := with_mongo [(key_a, ann)] empty_db.

(** A [modified] event for a document with a free-form key. *)
Definition modified_foreign : F2M.DocChange :=
  F2M.mkDocChange F2M.modified (snap foreign_key bob).


Definition removed_untagged : F2M.DocChange :=
  F2M.mkDocChange F2M.removed (snap key_a bob).


(** Both stores hold a document under [key_a]. *)
Definition ann_in_both : Db :=
  with_fs [(key_a, [("id", VStr key_a); ("firstName", VStr "Ann");
                    ("_syncedFrom", VStr "mongo")])] ann_in_mongo.


Definition update_event : M2F.Change :=
  M2F.mkChange M2F.update (document_key key_a) None.


(** Documents under a free-form key: plain, and carrying an [_id] field. *)
Definition foreign_doc : FirestoreToMongo.DocSnap :=
  snap foreign_key [("id", VStr foreign_key); ("firstName", VStr "Tia")].

(** Ann in the primary store, an untagged document of Bob under the same
    key in the secondary store. *)
Definition clash : Db := with_fs [(key_a, bob)] ann_in_mongo.

(** A document is added to the secondary store and removed again. *)
Definition added_then_removed : list FeedEvent :=
  [SecondaryEvent (F2M.mkDocChange F2M.added (snap key_a bob));
   SecondaryEvent (F2M.mkDocChange F2M.removed (snap key_a bob))].

(** A feed with nothing in flight. *)
Definition idle (db : Db) : Feed.State := Feed.mkState db [] [].

End Sample.

Module SampleWorld.
Import Sample.

(** The primary store of [students] cannot be reached; [tests] holds one
    record and both its stores can be reached. *)
Definition students_down : Startup.World :=
  fun name =>
    if String.eqb name "students" then mkDb ∅ ∅ false true false 0 []
    else if String.eqb name "tests" then ann_in_mongo
    else empty_db.


End SampleWorld.

Module Sample2.
Import Sample.

(** Ann in the primary store; the secondary store cannot be reached. *)
Definition secondary_down : Db := mkDb (mongo ann_in_mongo) ∅ true false false 0 [].

(** Bob in the secondary store; the primary store cannot be reached. *)
Definition primary_down : Db := mkDb ∅ (fs clash) false true false 0 [].

(** An [insert] event carrying Bob's record. *)
Definition insert_bob : M2F.Change :=
  M2F.mkChange M2F.insert (document_key key_a) (Some (lean key_a bob)).

(** An [added] event for an untagged document under a key of the primary
    grammar. *)
Definition added_bob : F2M.DocChange := F2M.mkDocChange F2M.added (snap key_a bob).


(** A record with a reference to another record and a list of references,
    and no Date. *)
Definition referenced : Obj :=
  lean key_a
    [("firstName", VStr "Ann"); ("__v", VNum 0);
     ("createdBy", VObjectId key_b);
     ("attempts", VArr [VObjectId key_b; VNum 3])].

End Sample2.

(** ** Vocabulary of the further properties *)

(** Every store call the program can issue, whatever the earlier calls
    answer, satisfies [P]. *)
Fixpoint all_calls (P : forall X : Type, Call X -> Prop) {R : Type} (p : Prog R) : Prop :=
  match p with
  | Ret _ | Throw _ => True
  | Say _ k | Subscribe _ k => all_calls P k
  | Await c k => P _ c /\ forall r, all_calls P (k r)
  end.

(** Calls that write to the primary store, and to the secondary store. *)
Definition writes_primary {X : Type} (c : Call X) : bool :=
  match c with
  | MCreate _ | MFindByIdAndUpdate _ _ | MFindByIdAndDelete _ => true
  | _ => false
  end.

Definition writes_secondary {X : Type} (c : Call X) : bool :=
  match c with
  | FsSet _ _ | FsDelete _ => true
  | _ => false
  end.

(** What a call writes, if it writes an object, is an object with distinct
    property names tagged [t]. *)
Definition tagged_writes (t : string) (X : Type) (c : Call X) : Prop :=
  match c with
  | FsSet _ data => field_is SYNCED_FROM t data = true
  | MCreate doc => field_is SYNCED_FROM t doc = true
  | MFindByIdAndUpdate _ upd =>
      field_is SYNCED_FROM t upd = true /\ NoDup (keys upd)
  | _ => True
  end.

(** The calls of the primary-to-secondary code: no write to the primary
    store, and every document written is tagged [mongo]. *)
Definition primary_replicator_call (X : Type) (c : Call X) : Prop :=
  writes_primary c = false /\ tagged_writes MONGO X c.

(** The calls of the secondary-to-primary code: no write to the secondary
    store, and every record written is tagged [firestore]. *)
Definition secondary_replicator_call (X : Type) (c : Call X) : Prop :=
  writes_secondary c = false /\ tagged_writes FIRESTORE X c.

(** Every document of [f] is either the one [f0] holds under the same key
    or tagged [t]. *)
Definition new_are_tagged (t : string) (f0 f : gmap string Obj) : Prop :=
  forall id doc, f !! id = Some doc ->
    f0 !! id = Some doc \/ field_is SYNCED_FROM t doc = true.

(** Neither a Date nor an ObjectId occurs anywhere inside [v]. *)
Fixpoint plain (v : value) : bool :=
  match v with
  | VObjectId _ | VDate _ => false
  | VArr items => forallb plain items
  | VObj entries => forallb (fun kv => plain (snd kv)) entries
  | _ => true
  end.

(** No Date occurs anywhere inside [v]. *)
Fixpoint dateless (v : value) : bool :=
  match v with
  | VDate _ => false
  | VArr items => forallb dateless items
  | VObj entries => forallb (fun kv => dateless (snd kv)) entries
  | _ => true
  end.

(** ** server.js: starting the sync services *)

Module Server.
Import Startup.

(** The sync block of server.js.  Both start functions catch their own
    failures, so the [catch] around the block is never entered and the
    closing line is always written. *)
Definition startSyncServices (w : World) : World * list LogLine :=
  let '(w1, ls1) := startMongoToFirestoreSync w in
  let '(w2, ls2) := startFirestoreToMongoSync w1 in
  (w2, [mkLog Rotate "Starting sync services..."] ++ ls1 ++ ls2
       ++ [mkLog Check "Sync services are running"]).

End Server.

(** A console line written by [console.error] in a [catch] block. *)
Definition is_error (l : LogLine) : bool :=
  match mark l with Cross => true | _ => false end.
(** * Properties *)

(** ** Plain objects *)

Section ObjectFacts.

Implicit Types (k : string) (v : value) (o : Obj).

Lemma get_field_None k o : get_field k o = None <-> k ∉ keys o.
Proof.
  induction o as [|[k' v'] o IH]; simpl.
  - split; [intros _; apply not_elem_of_nil | done].
  - destruct (String.eqb_spec k k') as [->|Hne].
    + split; [done | intros H; exfalso; apply H; left].
    + rewrite IH, not_elem_of_cons. tauto.
Qed.

Lemma get_field_set_eq k v o : get_field k (set_field k v o) = Some v.
Proof.
  induction o as [|[k' v'] o IH]; simpl.
  - by rewrite String.eqb_refl.
  - destruct (String.eqb_spec k k') as [->|Hne]; simpl.
    + by rewrite String.eqb_refl.
    + by destruct (String.eqb_spec k k').
Qed.

Lemma get_field_set_ne k k' v o :
  k ≠ k' -> get_field k (set_field k' v o) = get_field k o.
Proof.
  intros Hne. induction o as [|[k0 v0] o IH]; simpl.
  - by destruct (String.eqb_spec k k').
  - destruct (String.eqb_spec k' k0) as [->|Hne0]; simpl.
    + by destruct (String.eqb_spec k k0).
    + by rewrite IH.
Qed.

Lemma set_field_fresh k v o : k ∉ keys o -> set_field k v o = o ++ [(k, v)].
Proof.
  induction o as [|[k' v'] o IH]; simpl; [done|].
  rewrite not_elem_of_cons. intros [Hne Hnin].
  destruct (String.eqb_spec k k'); [done|]. by rewrite IH.
Qed.

Lemma keys_delete_field k o :
  keys (delete_field k o) = filter (fun k' => k' ≠ k) (keys o).
Proof.
  induction o as [|[k' v'] o IH]; simpl; [done|].
  destruct (String.eqb_spec k k') as [->|Hne].
  - rewrite filter_cons_False; [done | by intros Hne].
  - rewrite filter_cons_True by done. simpl. by rewrite IH.
Qed.

Lemma get_field_delete_eq k o : get_field k (delete_field k o) = None.
Proof.
  apply get_field_None. rewrite keys_delete_field, list_elem_of_filter.
  by intros [Hne _].
Qed.

Lemma get_field_delete_ne k k' o :
  k ≠ k' -> get_field k (delete_field k' o) = get_field k o.
Proof.
  intros Hne. induction o as [|[k0 v0] o IH]; simpl; [done|].
  destruct (String.eqb_spec k' k0) as [->|Hne0]; simpl.
  - by destruct (String.eqb_spec k k0).
  - by rewrite IH.
Qed.

Lemma NoDup_keys_delete k o : NoDup (keys o) -> NoDup (keys (delete_field k o)).
Proof. rewrite keys_delete_field. apply NoDup_filter. Qed.

Lemma delete_field_absent k o : k ∉ keys o -> delete_field k o = o.
Proof.
  induction o as [|[k' v'] o IH]; simpl; [done|].
  rewrite not_elem_of_cons. intros [Hne Hnin].
  destruct (String.eqb_spec k k'); [done|]. by rewrite IH.
Qed.

(** Spreading an object with distinct keys over one that shares none of
    them appends its entries. *)
Lemma spread_fresh src acc :
  NoDup (keys acc ++ keys src) -> spread src acc = acc ++ src.
Proof.
  unfold spread. revert acc.
  induction src as [|[k v] src IH]; intros acc Hnd; simpl.
  - by rewrite app_nil_r.
  - rewrite set_field_fresh.
    + rewrite IH; [by rewrite <- app_assoc|].
      unfold keys in *. rewrite map_app. simpl in *.
      by rewrite <- app_assoc.
    + simpl in Hnd. apply NoDup_app in Hnd as (_ & Hdisj & _).
      intros Hin. apply (Hdisj _ Hin). left.
Qed.

Lemma get_field_spread_absent k src acc :
  k ∉ keys src -> get_field k (spread src acc) = get_field k acc.
Proof.
  unfold spread. revert acc.
  induction src as [|[k' v'] src IH]; intros acc; simpl; [done|].
  rewrite not_elem_of_cons. intros [Hne Hnin].
  rewrite IH by done. by apply get_field_set_ne.
Qed.

Lemma get_field_withTag t doc : get_field SYNCED_FROM (withTag t doc) = Some (VStr t).
Proof. apply get_field_set_eq. Qed.

Lemma field_is_withTag t doc : field_is SYNCED_FROM t (withTag t doc) = true.
Proof. unfold field_is. rewrite get_field_withTag. apply String.eqb_refl. Qed.

End ObjectFacts.

(** ** The normalizer towards Firestore *)

Section ValueInduction.

Variable P : value -> Prop.
Hypothesis Hnull : P VNull.
Hypothesis Hbool : forall b, P (VBool b).
Hypothesis Hnum : forall n, P (VNum n).
Hypothesis Hstr : forall s, P (VStr s).
Hypothesis Hoid : forall h, P (VObjectId h).
Hypothesis Hdate : forall ms, P (VDate ms).
Hypothesis Harr : forall items, Forall P items -> P (VArr items).
Hypothesis Hobj : forall entries, Forall (fun kv => P (snd kv)) entries -> P (VObj entries).

(** Induction on a value that reaches the items of arrays and the values
    of object entries. *)
Lemma value_nested_ind : forall v, P v.
Proof.
  fix IH 1. intros [| b | n | s | h | ms | items | entries].
  - exact Hnull.
  - apply Hbool.
  - apply Hnum.
  - apply Hstr.
  - apply Hoid.
  - apply Hdate.
  - apply Harr. induction items as [|x items IHitems]; constructor; [apply IH | exact IHitems].
  - apply Hobj. induction entries as [|[k x] entries IHentries]; constructor;
      [apply IH | exact IHentries].
Qed.

End ValueInduction.

Section Normalizer.
Import MongoToFirestore.

Lemma cleanObject_VObj entries : cleanObject (VObj entries) = VObj (cleanEntries entries []).
Proof.
  unfold cleanEntries. simpl. f_equal. generalize (@nil (string * value)).
  induction entries as [|[k v] entries IH]; intros acc; simpl; [done | apply IH].
Qed.

(** With distinct property names the assignment loop is an element-wise
    map that keeps the order of the entries. *)
Lemma cleanEntries_map entries acc :
  NoDup (keys acc ++ keys entries) ->
  cleanEntries entries acc = acc ++ map cleanEntry entries.
Proof.
  unfold cleanEntries. revert acc.
  induction entries as [|[k v] entries IH]; intros acc Hnd; simpl.
  - by rewrite app_nil_r.
  - rewrite set_field_fresh.
    + rewrite IH; [by rewrite <- app_assoc|].
      unfold keys in *. rewrite map_app. simpl in *. by rewrite <- app_assoc.
    + simpl in Hnd. apply NoDup_app in Hnd as (_ & Hdisj & _).
      intros Hin. apply (Hdisj _ Hin). left.
Qed.

Lemma cleanObject_wf_VObj entries :
  NoDup (keys entries) ->
  cleanObject (VObj entries) = VObj (map cleanEntry entries).
Proof.
  intros Hnd. rewrite cleanObject_VObj, cleanEntries_map; [done | by simpl].
Qed.

Lemma well_formed_VObj entries :
  well_formed (VObj entries) = true ->
  NoDup (keys entries) /\ Forall (fun kv => well_formed (snd kv) = true) entries.
Proof.
  simpl. rewrite andb_true_iff, bool_decide_eq_true, forallb_forall, Forall_forall.
  intros [Hnd Hall]. split; [done|]. intros x Hx. apply Hall. by apply list_elem_of_In.
Qed.

Lemma well_formed_VArr items :
  well_formed (VArr items) = true -> Forall (fun x => well_formed x = true) items.
Proof.
  simpl. rewrite forallb_forall, Forall_forall.
  intros Hall x Hx. apply Hall. by apply list_elem_of_In.
Qed.

(** [cleanObject] computes the secondary shape. *)
Lemma cleanObject_secondary_shape v :
  well_formed v = true -> secondary_shape v (cleanObject v).
Proof.
  induction v as [| b | n | s | h | ms | items IH | entries IH] using value_nested_ind;
    intros Hwf; try by (simpl; constructor).
  - apply well_formed_VArr in Hwf. simpl. constructor.
    induction IH as [|x items Hx _ IHitems]; simpl; [constructor|].
    inversion Hwf; subst. constructor; auto.
  - apply well_formed_VObj in Hwf as [Hnd Hwf].
    rewrite cleanObject_wf_VObj by done. constructor. clear Hnd.
    induction IH as [|[k x] entries Hx _ IHentries]; simpl; [constructor|].
    inversion Hwf; subst. constructor; auto.
Qed.

(** No ObjectId is left anywhere in the result. *)
Lemma cleanObject_no_ObjectId v :
  well_formed v = true -> contains_ObjectId (cleanObject v) = false.
Proof.
  induction v as [| b | n | s | h | ms | items IH | entries IH] using value_nested_ind;
    intros Hwf; try reflexivity.
  - apply well_formed_VArr in Hwf. simpl.
    induction IH as [|x items Hx _ IHitems]; simpl; [done|].
    inversion Hwf; subst. rewrite orb_false_iff. auto.
  - apply well_formed_VObj in Hwf as [Hnd Hwf].
    rewrite cleanObject_wf_VObj by done. simpl. clear Hnd.
    induction IH as [|[k x] entries Hx _ IHentries]; simpl; [done|].
    inversion Hwf; subst. rewrite orb_false_iff. auto.
Qed.

Lemma get_field_map_cleanEntry k entries :
  get_field k (map cleanEntry entries) = cleanObject <$> get_field k entries.
Proof.
  induction entries as [|[k' v'] entries IH]; simpl; [done|].
  by destruct (String.eqb k k').
Qed.

Lemma well_formed_delete_field k entries :
  well_formed (VObj entries) = true -> well_formed (VObj (delete_field k entries)) = true.
Proof.
  intros [Hnd Hall]%well_formed_VObj. simpl.
  rewrite andb_true_iff, bool_decide_eq_true. split.
  - by apply NoDup_keys_delete.
  - clear Hnd. induction entries as [|[k' v'] entries IH]; simpl; [done|].
    inversion Hall; subst. destruct (String.eqb k k'); simpl; [auto|].
    rewrite andb_true_iff. auto.
Qed.

(** The result of [cleanDocument] on a record with no property [id] of its
    own: [id] first, then the other properties in order, each cleaned. *)
Lemma cleanDocument_shape d s :
  well_formed (VObj d) = true ->
  toString (get_field "_id" d) = Some s ->
  get_field "id" d = None ->
  cleanDocument (Some d) =
    inr (("id", VStr s) :: map cleanEntry (delete_field "__v" (delete_field "_id" d))).
Proof.
  intros Hwf Hid Hno. unfold cleanDocument. rewrite Hid.
  set (rest := delete_field "__v" (delete_field "_id" d)).
  assert (Hrest : well_formed (VObj rest) = true)
    by (by do 2 apply well_formed_delete_field).
  apply well_formed_VObj in Hrest as [Hnd _].
  assert (Hfresh : "id" ∉ keys rest).
  { apply get_field_None. unfold rest.
    by rewrite !get_field_delete_ne. }
  assert (Hnd' : NoDup (keys (("id", VStr s) :: rest))).
  { simpl. by apply NoDup_cons. }
  rewrite (spread_fresh rest [("id", VStr s)]) by done.
  rewrite cleanObject_wf_VObj by done. reflexivity.
Qed.

End Normalizer.

Section NormalizerClaims.
Import MongoToFirestore Sample.

(** C9 (amended).  For every primary-store record that has no property
    named [id] of its own, [cleanDocument] returns a document without the
    top-level [_id] and [__v], whose [id] is the string form of the record's
    [_id], in which no ObjectId is left at any depth, and which is the
    secondary shape of the record's other properties: references replaced
    by their string form, dates kept, arrays and objects transformed
    element by element, everything else kept. *)
Theorem cleanDocument_secondary_shape (d : Obj) (s : string) :
  well_formed (VObj d) = true ->
  toString (get_field "_id" d) = Some s ->
  get_field "id" d = None ->
  exists out,
    cleanDocument (Some d) = inr out
    /\ get_field "_id" out = None
    /\ get_field "__v" out = None
    /\ get_field "id" out = Some (VStr s)
    /\ contains_ObjectId (VObj out) = false
    /\ secondary_shape
         (VObj (("id", VStr s) :: delete_field "__v" (delete_field "_id" d)))
         (VObj out).
Proof.
  intros Hwf Hid Hno.
  set (rest := delete_field "__v" (delete_field "_id" d)).
  assert (Hwf' : well_formed (VObj (("id", VStr s) :: rest)) = true).
  { assert (Hrest : well_formed (VObj rest) = true)
      by (by do 2 apply well_formed_delete_field).
    pose proof Hrest as [Hnd _]%well_formed_VObj.
    simpl in *. apply andb_true_iff in Hrest as [_ ->].
    rewrite andb_true_r, bool_decide_eq_true. apply NoDup_cons. split; [|done].
    apply get_field_None. unfold rest. by rewrite !get_field_delete_ne. }
  pose proof Hwf' as [Hnd _]%well_formed_VObj.
  assert (Hout : cleanObject (VObj (("id", VStr s) :: rest))
                 = VObj (("id", VStr s) :: map cleanEntry rest))
    by (by rewrite cleanObject_wf_VObj).
  exists (("id", VStr s) :: map cleanEntry rest).
  split; [by apply cleanDocument_shape|].
  repeat split.
  - change (get_field "_id" (map cleanEntry rest) = None).
    rewrite get_field_map_cleanEntry. unfold rest.
    by rewrite get_field_delete_ne, get_field_delete_eq.
  - change (get_field "__v" (map cleanEntry rest) = None).
    rewrite get_field_map_cleanEntry. unfold rest. by rewrite get_field_delete_eq.
  - rewrite <- Hout. by apply cleanObject_no_ObjectId.
  - rewrite <- Hout. by apply cleanObject_secondary_shape.
Qed.

Lemma cleanDocument_secondary_shape_witness :
  exists out,
    cleanDocument (Some enrolled) = inr out
    /\ get_field "_id" out = None
    /\ get_field "__v" out = None
    /\ get_field "id" out = Some (VStr key_a)
    /\ contains_ObjectId (VObj out) = false
    /\ secondary_shape
         (VObj (("id", VStr key_a) :: delete_field "__v" (delete_field "_id" enrolled)))
         (VObj out).
Proof.
  apply (cleanDocument_secondary_shape enrolled key_a); vm_compute; reflexivity.
Defined.

(** C9 as stated fails on a record that has an [id] property of its own:
    the spread of the record's rest overwrites the [id] taken from [_id]. *)
Lemma cleanDocument_own_id_wins :
  well_formed (VObj with_own_id) = true
  /\ toString (get_field "_id" with_own_id) = Some key_a
  /\ cleanDocument (Some with_own_id) = inr [("id", VStr "S-001")]
  /\ get_field "id" [("id", VStr "S-001")] <> Some (VStr key_a).
Proof. repeat split; try (vm_compute; reflexivity). vm_compute. discriminate. Qed.

End NormalizerClaims.

(** ** Running programs *)

Section RunFacts.

Lemma run_bind {A B : Type} (p : Prog A) (f : A -> Prog B) db :
  run (bind p f) db =
    match result (run p db) with
    | inl e => mkOutcome (after (run p db)) (console (run p db)) (inl e)
    | inr a =>
        let o := run (f a) (after (run p db)) in
        mkOutcome (after o) (console (run p db) ++ console o) (result o)
    end.
Proof.
  revert db. induction p as [a | e | l k IH | d k IH | X c k IH]; intros db; simpl.
  - by destruct (run (f a) db).
  - done.
  - rewrite IH. by destruct (result (run k db)).
  - apply IH.
  - destruct (exec c db) as [db' r]. apply IH.
Qed.

Lemma run_try_catch {A : Type} (p : Prog A) (h : Err -> Prog A) db :
  run (try_catch p h) db =
    match result (run p db) with
    | inl e =>
        let o := run (h e) (after (run p db)) in
        mkOutcome (after o) (console (run p db) ++ console o) (result o)
    | inr a => run p db
    end.
Proof.
  revert db. induction p as [a | e | l k IH | d k IH | X c k IH]; intros db; simpl.
  - done.
  - by destruct (run (h e) db).
  - rewrite IH. by destruct (result (run k db)).
  - apply IH.
  - destruct (exec c db) as [db' r]. apply IH.
Qed.

(** A loop whose body never throws is a fold over the stores. *)
Lemma run_for_of {A : Type} (xs : list A) (body : A -> Prog unit) db :
  (forall x d, result (run (body x) d) = inr tt) ->
  after (run (for_of xs body) db) = fold_left (fun d x => after (run (body x) d)) xs db
  /\ result (run (for_of xs body) db) = inr tt.
Proof.
  intros Hbody. revert db. induction xs as [|x xs IH]; intros db; simpl; [done|].
  rewrite run_bind, Hbody. simpl. apply IH.
Qed.

End RunFacts.

(** Closed statements about sample data: split the conjunctions and
    evaluate each side. *)
Ltac by_computation :=
  cbv zeta;
  repeat match goal with |- _ /\ _ => split end;
  vm_compute; reflexivity.

(** ** Echo suppression *)

Section Echo.

Lemma onChange_echo c change :
  syncedFrom FIRESTORE (M2F.fullDocument change) = true ->
  awaits_nothing (M2F.onChange c change) = true
  /\ forall db, after (run (M2F.onChange c change) db) = db.
Proof.
  intros Htag. unfold M2F.onChange.
  destruct (M2F.changeId change) as [e | id]; simpl; [done|].
  by rewrite Htag.
Qed.

Lemma onDocChange_echo c change :
  field_is SYNCED_FROM MONGO (FirestoreToMongo.doc_data (F2M.doc change)) = true ->
  awaits_nothing (F2M.onDocChange c change) = true
  /\ forall db, after (run (F2M.onDocChange c change) db) = db.
Proof. intros Htag. unfold F2M.onDocChange. by rewrite Htag. Qed.

(** C3 (amended).  An event read from one store whose record carries the
    tag of the opposite store (a primary event tagged [firestore], a
    secondary event tagged [mongo]) is discarded: its handler awaits no
    store call and leaves both stores as they were. *)
Theorem echo_is_discarded (c : string) (ev : FeedEvent) :
  carries_tag (opposite (origin ev)) ev = true ->
  awaits_nothing (handler c ev) = true
  /\ forall db, after (run (handler c ev) db) = db.
Proof.
  destruct ev as [change | change]; simpl; intros Htag.
  - by apply onChange_echo.
  - by apply onDocChange_echo.
Qed.

End Echo.

Section EchoExamples.
Import Sample.

(** C3 as stated fails: an event carrying the tag of the store it was read
    from is replicated, in both directions. *)
Lemma own_tag_is_replicated :
  (carries_tag (origin insert_tagged_mongo) insert_tagged_mongo = true
   /\ fs (after (run (handler "students" insert_tagged_mongo) empty_db)) !! key_a
      = Some [("id", VStr key_a); ("_syncedFrom", VStr "mongo"); ("firstName", VStr "Bob")])
  /\ (carries_tag (origin added_tagged_firestore) added_tagged_firestore = true
      /\ mongo (after (run (handler "students" added_tagged_firestore) empty_db)) !! key_a
         = Some [("_syncedFrom", VStr "firestore"); ("firstName", VStr "Bob")]).
Proof. split; split; vm_compute; reflexivity. Qed.

Lemma echo_is_discarded_witness :
  carries_tag (opposite (origin update_tagged_firestore)) update_tagged_firestore = true
  /\ awaits_nothing (handler "students" update_tagged_firestore) = true
  /\ forall db, after (run (handler "students" update_tagged_firestore) db) = db.
Proof.
  split; [reflexivity|].
  apply (echo_is_discarded "students" update_tagged_firestore). reflexivity.
Defined.

End EchoExamples.

(** ** The change handlers, one event at a time *)

Section SecondaryHandler.
Import FirestoreToMongo.

(** C6.  A [modified] or [removed] event of the secondary feed whose key
    does not match the 24-digit hexadecimal grammar changes nothing in the
    primary store: the handler awaits no store call, leaves the stores as
    they were and writes one console line, the warning about the key format
    (or the skip notice when the document is tagged [mongo]). *)
Theorem foreign_key_modified_removed_is_noop
    (c : string) (change : F2M.DocChange) (db : Db) :
  F2M.type change <> F2M.added ->
  isValidObjectId (doc_id (F2M.doc change)) = false ->
  let o := run (F2M.onDocChange c change) db in
  mongo (after o) = mongo db
  /\ after o = db
  /\ result o = inr tt
  /\ awaits_nothing (F2M.onDocChange c change) = true
  /\ exists l, console o = [l]
       /\ mark l = (if field_is SYNCED_FROM MONGO (doc_data (F2M.doc change))
                    then Skip else Warning).
Proof.
  intros Hty Hkey. unfold F2M.onDocChange.
  destruct (field_is SYNCED_FROM MONGO (doc_data (F2M.doc change))).
  - simpl. repeat split. by eexists.
  - rewrite Hkey. destruct (F2M.type change); [done | |];
      simpl; repeat split; by eexists.
Qed.

(** C10.  A live [added] event is create-if-absent: when a primary record
    already exists at the document's key the handler leaves the stores as
    they were, and the primary store changes only if no record existed at
    that key. *)
Theorem added_is_create_if_absent (c : string) (d : DocSnap) (db : Db) :
  let o := run (F2M.onDocChange c (F2M.mkDocChange F2M.added d)) db in
  (is_Some (mongo db !! doc_id d) -> after o = db /\ result o = inr tt)
  /\ (mongo (after o) <> mongo db -> mongo db !! doc_id d = None).
Proof.
  assert (Hsome : is_Some (mongo db !! doc_id d) ->
                  after (run (F2M.onDocChange c (F2M.mkDocChange F2M.added d)) db) = db
                  /\ result (run (F2M.onDocChange c (F2M.mkDocChange F2M.added d)) db) = inr tt).
  { intros [fields Hfields]. unfold F2M.onDocChange. simpl.
    destruct (field_is SYNCED_FROM MONGO (doc_data d)); [done|].
    simpl. destruct (mongoUp db); [|done].
    destruct (castable (doc_id d) db); [|done].
    unfold mongo_findById. by rewrite Hfields. }
  split; [exact Hsome|].
  intros Hchanged. destruct (mongo db !! doc_id d) eqn:Hlook; [|done].
  exfalso. apply Hchanged. by rewrite (proj1 (Hsome (mk_is_Some _ _ eq_refl))).
Qed.

End SecondaryHandler.

Section SecondaryHandlerExamples.
Import FirestoreToMongo Sample.

Lemma foreign_key_modified_removed_is_noop_witness :
  let o := run (F2M.onDocChange "students" modified_foreign) ann_in_mongo in
  mongo (after o) = mongo ann_in_mongo
  /\ after o = ann_in_mongo
  /\ result o = inr tt
  /\ awaits_nothing (F2M.onDocChange "students" modified_foreign) = true
  /\ exists l, console o = [l] /\ mark l = Warning.
Proof.
  apply (foreign_key_modified_removed_is_noop "students" modified_foreign ann_in_mongo).
  - discriminate.
  - reflexivity.
Defined.

Lemma added_is_create_if_absent_witness :
  let o := run (F2M.onDocChange "students" (F2M.mkDocChange F2M.added (snap key_a bob)))
               ann_in_mongo in
  is_Some (mongo ann_in_mongo !! key_a) /\ after o = ann_in_mongo /\ result o = inr tt.
Proof.
  assert (H : is_Some (mongo ann_in_mongo !! key_a)) by (vm_compute; eauto).
  split; [exact H|].
  exact (proj1 (added_is_create_if_absent "students" (snap key_a bob) ann_in_mongo) H).
Defined.

End SecondaryHandlerExamples.

Section Deletion.
Import FirestoreToMongo.


End Deletion.

Section DeletionExamples.
Import FirestoreToMongo Sample.



End DeletionExamples.

Section PrimaryUpdate.
Import MongoToFirestore FirestoreToMongo.

Lemma cleanDocument_lean id fields :
  exists cleaned, cleanDocument (Some (lean id fields)) = inr cleaned.
Proof. unfold cleanDocument, lean. simpl. by eexists. Qed.

#[local] Arguments cleanFirestoreDoc : simpl never.
#[local] Arguments withTag : simpl never.


End PrimaryUpdate.

Section PrimaryUpdateExamples.
Import MongoToFirestore FirestoreToMongo Sample.



End PrimaryUpdateExamples.

(** ** Key-format fallback *)

Section Minting.






End Minting.

Section Fallback.
Import FirestoreToMongo.

Lemma F2M_cleanObject_VObj entries :
  cleanObject (VObj entries)
  = VObj (fold_left (fun cleaned kv => assignCleaned cleanObject (fst kv) (snd kv) cleaned)
                    entries []).
Proof.
  simpl. f_equal. generalize (@nil (string * value)).
  induction entries as [|[k v] entries IH]; intros acc; simpl; [done | apply IH].
Qed.



Lemma get_field_withTag_ne k t doc :
  k <> SYNCED_FROM -> get_field k doc = None -> get_field k (withTag t doc) = None.
Proof.
  intros Hne Hk. unfold withTag. rewrite get_field_set_ne by done.
  rewrite get_field_spread_absent; [done | by apply get_field_None].
Qed.

#[local] Arguments cleanFirestoreDoc : simpl never.
#[local] Arguments withTag : simpl never.
#[local] Arguments mintedKey : simpl never.


(** When the model layer rejects ill-formed keys, the lookup that precedes
    the key test fails, and nothing is created for such a document. *)
Lemma foreign_key_rejected_when_strict (c : string) (d : DocSnap) (db : Db) :
  isValidObjectId (doc_id d) = false ->
  field_is SYNCED_FROM MONGO (doc_data d) = false ->
  strictKeys db = true ->
  let live := run (F2M.onDocChange c (F2M.mkDocChange F2M.added d)) db in
  let backfill := run (F2M.initialSyncDoc c d) db in
  after live = db /\ Forall (fun l => mark l = Cross) (console live)
  /\ after backfill = db /\ Forall (fun l => mark l = Cross) (console backfill).
Proof.
  intros Hkey Htag Hstrict.
  cbv zeta. unfold F2M.onDocChange, F2M.initialSyncDoc. simpl.
  rewrite Htag, Hkey. simpl. unfold castable. rewrite Hstrict, Hkey. simpl.
  destruct (mongoUp db); simpl; repeat split; by repeat constructor.
Qed.

End Fallback.

Section FallbackExamples.
Import FirestoreToMongo Sample.



End FallbackExamples.

(** ** Backfill *)

Section CreateIfAbsent.

Implicit Types (f : gmap string Obj) (records : list (string * Obj)).








End CreateIfAbsent.

Section PrimaryBackfill.
Import MongoToFirestore.

Lemma m2f_initialSyncDoc_result c d db :
  result (run (M2F.initialSyncDoc c d) db) = inr tt.
Proof.
  unfold M2F.initialSyncDoc. rewrite run_try_catch.
  destruct (result (run _ db)) as [e | []] eqn:Hres; [done | exact Hres].
Qed.

Lemma m2f_initialSyncDoc_after c key fields db :
  after (run (M2F.initialSyncDoc c (lean key fields)) db)
  = if fsUp db then set_fs (create_if_absent key (mirror_of key fields) (fs db)) db
    else db.
Proof.
  unfold M2F.initialSyncDoc, create_if_absent, mirror_of. simpl.
  destruct (fsUp db) eqn:Hup; simpl; [|done].
  destruct (fs db !! key) eqn:Hkey; simpl.
  - by destruct db.
  - by rewrite Hup.
Qed.

(** The loop over [allDocs], as a pass of create-if-absent. *)
Lemma m2f_loop_after c records db :
  after (run (for_of (map (fun kf => lean (fst kf) (snd kf)) records)
                     (M2F.initialSyncDoc c)) db)
  = (if fsUp db then set_fs (mirrored records (fs db)) db else db)
  /\ result (run (for_of (map (fun kf => lean (fst kf) (snd kf)) records)
                         (M2F.initialSyncDoc c)) db) = inr tt.
Proof.
  destruct (run_for_of (map (fun kf => lean (fst kf) (snd kf)) records)
              (M2F.initialSyncDoc c) db (m2f_initialSyncDoc_result c)) as [-> ->].
  split; [|done]. unfold mirrored. revert db.
  induction records as [|[k fields] records IH]; intros db.
  - simpl. destruct (fsUp db); [by destruct db | done].
  - cbn [map fold_left fst snd]. rewrite m2f_initialSyncDoc_after, IH.
    destruct (fsUp db) eqn:Hup; simpl; [by rewrite Hup | by rewrite Hup].
Qed.

(** [syncModelToFirestore] as a whole. *)
Lemma syncModelToFirestore_after c db :
  after (run (M2F.syncModelToFirestore c) db)
  = if mongoUp db then
      add_listener MongoToFs
        (if fsUp db then set_fs (mirrored (map_to_list (mongo db)) (fs db)) db else db)
    else db.
Proof.
  unfold M2F.syncModelToFirestore.
  rewrite run_bind. cbn [say run logged result after console].
  rewrite (run_bind (await MFind)). cbn [await run exec].
  destruct (mongoUp db) eqn:Hup; cbn [run result after console]; [|done].
  rewrite (run_bind (say _ _)). cbn [say run logged result after console].
  unfold mongo_find.
  destruct (m2f_loop_after c (map_to_list (mongo db)) db) as [Hafter Hres].
  rewrite (run_bind (for_of _ _)), Hres. cbn [result after console]. rewrite Hafter.
  reflexivity.
Qed.

End PrimaryBackfill.

Section SecondaryBackfill.
Import FirestoreToMongo.

#[local] Arguments cleanFirestoreDoc : simpl never.
#[local] Arguments withTag : simpl never.


End SecondaryBackfill.

Section BackfillClaims.
Import FirestoreToMongo Sample.




End BackfillClaims.

(** ** Starting the bindings *)

Section Frame.

Lemma exec_frame {X : Type} (c : Call X) db :
  mongoUp (fst (exec c db)) = mongoUp db
  /\ fsUp (fst (exec c db)) = fsUp db
  /\ listeners (fst (exec c db)) = listeners db.
Proof.
  destruct c; simpl; unfold mongo_create, mongo_findByIdAndUpdate;
    repeat case_match; simpl; done.
Qed.

Lemma subscribes_nothing_bind {A B : Type} (p : Prog A) (f : A -> Prog B) :
  subscribes_nothing p -> (forall a, subscribes_nothing (f a)) ->
  subscribes_nothing (bind p f).
Proof.
  intros Hp Hf. induction p as [a | e | l k IH | d k IH | X c k IH]; simpl in *; auto.
Qed.

Lemma subscribes_nothing_try_catch {A : Type} (p : Prog A) (h : Err -> Prog A) :
  subscribes_nothing p -> (forall e, subscribes_nothing (h e)) ->
  subscribes_nothing (try_catch p h).
Proof.
  intros Hp Hh. induction p as [a | e | l k IH | d k IH | X c k IH]; simpl in *; auto.
Qed.

Lemma subscribes_nothing_await {X : Type} (c : Call X) : subscribes_nothing (await c).
Proof. intros [e | x]; exact I. Qed.

(** A program that subscribes to nothing leaves the reachability flags and
    the subscriptions as they were. *)
Lemma run_frame {R : Type} (p : Prog R) db :
  subscribes_nothing p ->
  mongoUp (after (run p db)) = mongoUp db
  /\ fsUp (after (run p db)) = fsUp db
  /\ listeners (after (run p db)) = listeners db.
Proof.
  revert db. induction p as [a | e | l k IH | d k IH | X c k IH]; intros db Hp; simpl in *.
  - done.
  - done.
  - by apply IH.
  - done.
  - pose proof (exec_frame c db) as (H1 & H2 & H3).
    destruct (exec c db) as [db' r]. simpl in *.
    destruct (IH r db' (Hp r)) as (-> & -> & ->). done.
Qed.

Lemma fold_frame {A : Type} (body : A -> Prog unit) (xs : list A) db :
  (forall x, subscribes_nothing (body x)) ->
  let db' := fold_left (fun d x => after (run (body x) d)) xs db in
  mongoUp db' = mongoUp db /\ fsUp db' = fsUp db /\ listeners db' = listeners db.
Proof.
  intros Hbody. revert db. induction xs as [|x xs IH]; intros db; simpl; [done|].
  destruct (IH (after (run (body x) db))) as (-> & -> & ->).
  by apply run_frame.
Qed.

End Frame.

Section SyncOutcome.

Lemma syncModelToFirestore_result c db :
  result (run (M2F.syncModelToFirestore c) db)
  = if mongoUp db then inr tt else inl ConnectionError.
Proof.
  unfold M2F.syncModelToFirestore.
  rewrite run_bind. cbn [say run logged result after console].
  rewrite (run_bind (await MFind)). cbn [await run exec].
  destruct (mongoUp db) eqn:Hup; cbn [run result after console]; [|done].
  rewrite (run_bind (say _ _)). cbn [say run logged result after console].
  unfold mongo_find.
  destruct (m2f_loop_after c (map_to_list (mongo db)) db) as [Hafter Hres].
  rewrite (run_bind (for_of _ _)), Hres. reflexivity.
Qed.

Lemma f2m_initialSyncDoc_result c d db :
  result (run (F2M.initialSyncDoc c d) db) = inr tt.
Proof.
  unfold F2M.initialSyncDoc.
  destruct (field_is SYNCED_FROM MONGO _); [done|].
  rewrite run_try_catch.
  destruct (result (run _ db)) as [e | []] eqn:Hres; [done | exact Hres].
Qed.

Lemma f2m_initialSyncDoc_subscribes_nothing c d :
  subscribes_nothing (F2M.initialSyncDoc c d).
Proof.
  unfold F2M.initialSyncDoc.
  destruct (field_is SYNCED_FROM MONGO _); [exact I|].
  apply subscribes_nothing_try_catch; [|intros e; exact I].
  apply subscribes_nothing_bind; [apply subscribes_nothing_await|].
  intros [existing|].
  - apply subscribes_nothing_bind; [apply subscribes_nothing_await | intros; exact I].
  - destruct (isValidObjectId _);
      (apply subscribes_nothing_bind; [apply subscribes_nothing_await | intros; exact I]).
Qed.

(** [syncFirestoreToMongo] throws exactly when the first snapshot cannot be
    read; otherwise it ends subscribed to the secondary feed. *)
Lemma syncFirestoreToMongo_outcome c db :
  let o := run (F2M.syncFirestoreToMongo c) db in
  if fsUp db then
    result o = inr tt /\ listeners (after o) = listeners db ++ [FsToMongo]
  else result o = inl ConnectionError /\ after o = db.
Proof.
  unfold F2M.syncFirestoreToMongo. cbv zeta.
  rewrite run_bind. cbn [say run logged result after console].
  rewrite (run_bind (await FsGetAll)). cbn [await run exec].
  destruct (fsUp db) eqn:Hup; cbn [run result after console]; [|done].
  rewrite (run_bind (say _ _)). cbn [say run logged result after console].
  destruct (run_for_of (fs_docs (fs db)) (F2M.initialSyncDoc c) db
              (f2m_initialSyncDoc_result c)) as [Hafter Hres].
  rewrite (run_bind (for_of _ _)), Hres. cbn [run say logged result after console].
  split; [done|]. rewrite Hafter. cbn [add_listener listeners].
  by destruct (fold_frame (F2M.initialSyncDoc c) (fs_docs (fs db)) db
                 (f2m_initialSyncDoc_subscribes_nothing c)) as (_ & _ & ->).
Qed.

End SyncOutcome.

Section StartWith.
Import Startup.

Variable sync : string -> Prog unit.
Variable dir : Direction.
Variable ok : Db -> bool.
Variable failure : string.

Hypothesis sync_outcome : forall name db,
  if ok db then
    result (run (sync name) db) = inr tt
    /\ listeners (after (run (sync name) db)) = listeners db ++ [dir]
  else result (run (sync name) db) = inl ConnectionError /\ after (run (sync name) db) = db.

Lemma at_binding_same name db (w : World) : at_binding name db w name = db.
Proof. unfold at_binding. by rewrite String.eqb_refl. Qed.

Lemma at_binding_other name db (w : World) x : x <> name -> at_binding name db w x = w x.
Proof. intros Hne. unfold at_binding. by destruct (String.eqb_spec x name). Qed.

Lemma all_up_to_cons name names (w : World) i :
  all_up_to ok (name :: names) w (S i)
  <-> ok (w name) = true /\ all_up_to ok names w i.
Proof.
  unfold all_up_to. split.
  - intros H. split; [apply (H 0); [lia | done]|].
    intros j n Hj Hn. apply (H (S j)); [lia | done].
  - intros [H0 H] [|j] n Hj Hn; [by injection Hn as <-|].
    apply (H j); [lia | done].
Qed.

Lemma all_up_to_ext names (w w' : World) i :
  (forall x, x ∈ names -> w' x = w x) ->
  all_up_to ok names w' i <-> all_up_to ok names w i.
Proof.
  intros Hext. unfold all_up_to.
  split; intros H j n Hj Hn; specialize (H j n Hj Hn);
    rewrite Hext in * by (by eapply list_elem_of_lookup_2); done.
Qed.

(** Awaiting the bindings in order: bindings outside the list are not
    touched; a listed binding is started when it and every binding before
    it pass [ok], and keeps its state otherwise. *)
Lemma await_each_prefix names (w : World) :
  NoDup names ->
  let w' := fst (fst (await_each sync names w)) in
  (forall x, x ∉ names -> w' x = w x)
  /\ (forall i name, names !! i = Some name ->
        (all_up_to ok names w i -> listeners (w' name) = listeners (w name) ++ [dir])
        /\ (~ all_up_to ok names w i -> w' name = w name)).
Proof.
  revert w. induction names as [|n names IH]; intros w Hnd; cbv zeta.
  - split; [done | intros i name Hi; by rewrite lookup_nil in Hi].
  - apply NoDup_cons in Hnd as [Hn Hnd]. cbn [await_each]. unfold await_sync.
    pose proof (sync_outcome n (w n)) as Hsync.
    destruct (ok (w n)) eqn:Hok; destruct Hsync as [Hres Hafter]; rewrite Hres.
    + set (w1 := at_binding n (after (run (sync n) (w n))) w).
      destruct (IH w1 Hnd) as [Hout Hin].
      destruct (await_each sync names w1) as [[w2 ls] r]. cbn [fst] in *.
      split.
      * intros x [Hx Hx']%not_elem_of_cons.
        rewrite Hout by done. by apply at_binding_other.
      * intros [|i] name Hname.
        -- injection Hname as <-. rewrite Hout by done. unfold w1.
           rewrite at_binding_same. split; [done|].
           intros Hnot. exfalso. apply Hnot. intros j x Hj Hx.
           assert (j = 0) as -> by lia. by injection Hx as <-.
        -- cbn in Hname. destruct (Hin i name Hname) as [Hyes Hno].
           assert (Hne : name <> n).
           { intros ->. apply Hn. by eapply list_elem_of_lookup_2. }
           assert (Hext : forall x, x ∈ names -> w1 x = w x).
           { intros x Hx. apply at_binding_other. by intros ->. }
           rewrite all_up_to_cons, <- (all_up_to_ext names w w1 i Hext).
           unfold w1 in Hyes, Hno. rewrite at_binding_other in Hyes, Hno by done.
           split; [by intros [_ H]; apply Hyes|].
           intros Hnot. apply Hno. intros H. by apply Hnot.
    + cbn [fst]. rewrite Hafter.
      assert (Hid : forall x, at_binding n (w n) w x = w x).
      { intros x. unfold at_binding. by destruct (String.eqb_spec x n) as [->|]. }
      split; [by intros x _|].
      intros i name Hname. rewrite Hid. split; [|done].
      intros Hall. specialize (Hall 0 n). cbn in Hall.
      rewrite Hok in Hall. by discriminate Hall; [lia|].
Qed.

(** A start function awaits the bindings in order inside one [try]: the
    sync of a binding is started when it and every binding before it pass
    [ok], and a binding at or after the first failure keeps its state. *)
Lemma start_with_prefix w i name :
  bindings !! i = Some name ->
  let w' := fst (start_with sync failure w) in
  (all_up_to ok bindings w i -> listeners (w' name) = listeners (w name) ++ [dir])
  /\ (~ all_up_to ok bindings w i -> w' name = w name).
Proof.
  intros Hname. cbv zeta.
  assert (Hnd : NoDup bindings) by (apply (bool_decide_unpack _); by vm_compute).
  destruct (await_each_prefix bindings w Hnd) as [_ Hin].
  specialize (Hin i name Hname). unfold start_with.
  by destruct (await_each sync bindings w) as [[w' ls] [e | r]].
Qed.

End StartWith.

Section StartupClaims.
Import Startup Sample SampleWorld.

Lemma syncModelToFirestore_outcome c db :
  if mongoUp db then
    result (run (M2F.syncModelToFirestore c) db) = inr tt
    /\ listeners (after (run (M2F.syncModelToFirestore c) db)) = listeners db ++ [MongoToFs]
  else result (run (M2F.syncModelToFirestore c) db) = inl ConnectionError
       /\ after (run (M2F.syncModelToFirestore c) db) = db.
Proof.
  rewrite syncModelToFirestore_result, syncModelToFirestore_after.
  destruct (mongoUp db); [|done]. split; [done|]. by destruct (fsUp db).
Qed.




End StartupClaims.

(** ** Handlers in flight *)

Section InFlight.
Import Feed.

Lemma advance_pending p st :
  pending (advance p st)
  = pending st ++ match first_await p with Some t => [t] | None => [] end.
Proof.
  revert st. induction p as [a | e | l k IH | d k IH | X c k IH]; intros st; simpl;
    rewrite ?IH, ?app_nil_r; done.
Qed.

Lemma advance_stores p st :
  subscribes_nothing p -> stores (advance p st) = stores st.
Proof.
  revert st. induction p as [a | e | l k IH | d k IH | X c k IH]; intros st Hp; simpl in *;
    try done. by rewrite IH.
Qed.

Lemma onChange_subscribes_nothing c change : subscribes_nothing (M2F.onChange c change).
Proof.
  unfold M2F.onChange.
  apply subscribes_nothing_try_catch; [|intros e; exact I].
  apply subscribes_nothing_bind; [by destruct (M2F.changeId change)|].
  intros id. destruct (syncedFrom FIRESTORE _); [exact I|].
  destruct (M2F.operationType change); try exact I.
  - apply subscribes_nothing_bind; [by destruct (MongoToFirestore.cleanDocument _)|].
    intros cleaned.
    apply subscribes_nothing_bind; [apply subscribes_nothing_await | intros; exact I].
  - apply subscribes_nothing_bind; [apply subscribes_nothing_await|].
    intros updatedDoc. destruct (syncedFrom FIRESTORE updatedDoc); [exact I|].
    apply subscribes_nothing_bind; [by destruct (MongoToFirestore.cleanDocument _)|].
    intros cleaned.
    apply subscribes_nothing_bind; [apply subscribes_nothing_await | intros; exact I].
  - apply subscribes_nothing_bind; [apply subscribes_nothing_await|].
    intros updatedDoc. destruct (syncedFrom FIRESTORE updatedDoc); [exact I|].
    apply subscribes_nothing_bind; [by destruct (MongoToFirestore.cleanDocument _)|].
    intros cleaned.
    apply subscribes_nothing_bind; [apply subscribes_nothing_await | intros; exact I].
  - apply subscribes_nothing_bind; [apply subscribes_nothing_await | intros; exact I].
Qed.

Lemma onDocChange_subscribes_nothing c change :
  subscribes_nothing (F2M.onDocChange c change).
Proof.
  unfold F2M.onDocChange.
  destruct (field_is SYNCED_FROM MONGO _); [exact I|].
  apply subscribes_nothing_try_catch; [|intros e; exact I].
  destruct (F2M.type change).
  - apply subscribes_nothing_bind; [apply subscribes_nothing_await|].
    intros [existing|]; [exact I|].
    destruct (isValidObjectId _);
      (apply subscribes_nothing_bind; [apply subscribes_nothing_await | intros; exact I]).
  - destruct (isValidObjectId _); [|exact I].
    apply subscribes_nothing_bind; [apply subscribes_nothing_await|].
    intros [existing|]; [|exact I].
    apply subscribes_nothing_bind; [apply subscribes_nothing_await | intros; exact I].
  - destruct (isValidObjectId _); [|exact I].
    apply subscribes_nothing_bind; [apply subscribes_nothing_await | intros; exact I].
Qed.

Lemma handler_subscribes_nothing c ev : subscribes_nothing (handler c ev).
Proof.
  destruct ev; [apply onChange_subscribes_nothing | apply onDocChange_subscribes_nothing].
Qed.

(** Answering the calls of a lone handler one after the other is running
    it alone. *)
Lemma lone_handler_runs_to_end p st :
  pending st = [] ->
  exists n,
    play (repeat 0 n) (advance p st)
    = mkState (after (run p (stores st))) (out st ++ console (run p (stores st))) [].
Proof.
  revert st. induction p as [a | e | l k IH | d k IH | X c k IH]; intros st Hidle.
  - exists 0. destruct st; simpl in *. by rewrite app_nil_r, Hidle.
  - exists 0. destruct st; simpl in *. by rewrite app_nil_r, Hidle.
  - destruct (IH (mkState (stores st) (out st ++ [l]) (pending st)) Hidle) as [n Hn].
    exists n. simpl in *. by rewrite Hn, <- app_assoc.
  - destruct (IH (mkState (add_listener d (stores st)) (out st) (pending st)) Hidle)
      as [n Hn].
    exists n. simpl in *. by rewrite Hn.
  - destruct (exec c (stores st)) as [db' r] eqn:Hexec.
    destruct (IH r (mkState db' (out st) []) eq_refl) as [n Hn].
    exists (S n). simpl. unfold resume at 1. simpl. rewrite Hidle. simpl.
    rewrite Hexec. exact Hn.
Qed.

End InFlight.

Section FeedClaims.
Import Feed Sample.

(** C8 (amended).  Within one feed the handlers are started in arrival
    order: dispatching a run of events performs no store call and leaves,
    in arrival order, one waiting handler for each event whose handler
    reaches a store call.  The feed does not wait for a handler to finish
    before starting the next one.  A handler whose calls are all answered
    while nothing else is in flight has the effect of running alone. *)
Theorem handlers_start_in_arrival_order
    (c : string) (evs : list FeedEvent) (st : State) :
  stores (emit_all (handler c) evs st) = stores st
  /\ pending (emit_all (handler c) evs st)
     = pending st ++ omap (fun ev => first_await (handler c ev)) evs
  /\ (forall ev, pending st = [] ->
        exists n,
          play (repeat 0 n) (emit (handler c) ev st)
          = mkState (after (run (handler c ev) (stores st)))
                    (out st ++ console (run (handler c ev) (stores st))) []).
Proof.
  split; [|split].
  - revert st. induction evs as [|ev evs IH]; intros st; simpl; [done|].
    rewrite IH. apply advance_stores, handler_subscribes_nothing.
  - revert st. induction evs as [|ev evs IH]; intros st; simpl.
    + by rewrite app_nil_r.
    + rewrite IH. unfold emit. rewrite advance_pending, <- app_assoc.
      by destruct (first_await (handler c ev)).
  - intros ev Hidle. by apply lone_handler_runs_to_end.
Qed.

Lemma handlers_start_in_arrival_order_witness :
  let st := emit_all (handler "students") added_then_removed (idle empty_db) in
  stores st = empty_db
  /\ pending st = omap (fun ev => first_await (handler "students" ev)) added_then_removed
  /\ exists n,
       play (repeat 0 n)
            (emit (handler "students") (SecondaryEvent removed_untagged) (idle ann_in_mongo))
       = mkState
           (after (run (handler "students" (SecondaryEvent removed_untagged)) ann_in_mongo))
           (console (run (handler "students" (SecondaryEvent removed_untagged)) ann_in_mongo))
           [].
Proof.
  destruct (handlers_start_in_arrival_order "students" added_then_removed (idle empty_db))
    as (H1 & H2 & _).
  destruct (handlers_start_in_arrival_order "students" [] (idle ann_in_mongo))
    as (_ & _ & H3).
  split; [exact H1|]. split; [exact H2|].
  exact (H3 (SecondaryEvent removed_untagged) eq_refl).
Defined.

(** C8 as stated fails: after the two changes of one snapshot have been
    dispatched, both handlers are waiting and no store call has been
    answered, so the second began before the first completed.  When the
    calls are then answered in the order find, delete, create, the record
    of the removed document ends up in the primary store, which handling
    the events one at a time would not leave there. *)
Lemma second_handler_starts_before_first_ends :
  let st := emit_all (handler "students") added_then_removed (idle empty_db) in
  length (pending st) = 2
  /\ stores st = empty_db
  /\ pending (play [0; 0; 0] st) = []
  /\ mongo (stores (play [0; 0; 0] st)) !! key_a
     = Some [("firstName", VStr "Bob"); ("_syncedFrom", VStr "firestore")]
  /\ mongo (one_at_a_time (handler "students") added_then_removed empty_db) !! key_a
     = None.
Proof. by_computation. Qed.

End FeedClaims.

(** ** What the programs call *)

Section AllCalls.

Variable P : forall X : Type, Call X -> Prop.

Lemma all_calls_bind {A B : Type} (p : Prog A) (f : A -> Prog B) :
  all_calls P p -> (forall a, all_calls P (f a)) -> all_calls P (bind p f).
Proof.
  intros Hp Hf. induction p as [a | e | l k IH | d k IH | X c k IH]; simpl in *; auto.
  destruct Hp as [Hc Hk]. split; [done|]. intros r. by apply IH.
Qed.

Lemma all_calls_try_catch {A : Type} (p : Prog A) (h : Err -> Prog A) :
  all_calls P p -> (forall e, all_calls P (h e)) -> all_calls P (try_catch p h).
Proof.
  intros Hp Hh. induction p as [a | e | l k IH | d k IH | X c k IH]; simpl in *; auto.
  destruct Hp as [Hc Hk]. split; [done|]. intros r. by apply IH.
Qed.

Lemma all_calls_await {X : Type} (c : Call X) : P X c -> all_calls P (await c).
Proof. intros Hc. split; [done|]. by intros [e | x]. Qed.

Lemma all_calls_lift {A : Type} (r : Err + A) : all_calls P (lift r).
Proof. by destruct r. Qed.

Lemma all_calls_for_of {A : Type} (xs : list A) (body : A -> Prog unit) :
  (forall x, all_calls P (body x)) -> all_calls P (for_of xs body).
Proof.
  intros Hbody. induction xs as [|x xs IH]; simpl; [done|].
  apply all_calls_bind; [apply Hbody | by intros _].
Qed.

(** A relation between the stores before and after that every permitted
    call and every subscription respects is respected by the whole run. *)
Lemma run_respects (R : Db -> Db -> Prop) {A : Type} (p : Prog A) db :
  (forall d, R d d) ->
  (forall d1 d2 d3, R d1 d2 -> R d2 d3 -> R d1 d3) ->
  (forall d dir, R d (add_listener dir d)) ->
  (forall X (c : Call X) d, P X c -> R d (fst (exec c d))) ->
  all_calls P p -> R db (after (run p db)).
Proof.
  intros Hrefl Htrans Hsub Hexec. revert db.
  induction p as [a | e | l k IH | d k IH | X c k IH]; intros db Hp; simpl in *.
  - apply Hrefl.
  - apply Hrefl.
  - by apply IH.
  - eapply Htrans; [apply Hsub | by apply IH].
  - destruct Hp as [Hc Hk]. specialize (Hexec X c db Hc).
    destruct (exec c db) as [db' r]. simpl in *.
    eapply Htrans; [exact Hexec | by apply IH].
Qed.

End AllCalls.

Lemma all_calls_weaken (P Q : forall X : Type, Call X -> Prop) {A : Type} (p : Prog A) :
  (forall X c, P X c -> Q X c) -> all_calls P p -> all_calls Q p.
Proof.
  intros HPQ. induction p as [a | e | l k IH | d k IH | X c k IH]; simpl; auto.
  intros [Hc Hk]. split; [by apply HPQ | intros r; by apply IH].
Qed.

(** Prove [all_calls P] of a program written with the combinators. *)
Ltac all_calls_tac :=
  cbv zeta;
  repeat first
    [ exact I
    | apply all_calls_lift
    | apply all_calls_try_catch; [|intros ?]
    | apply all_calls_for_of; intros ?
    | apply all_calls_bind; [|intros ?]
    | match goal with
      | |- all_calls _ (await _) => apply all_calls_await
      | |- all_calls _ (say _ _) => exact I
      | |- all_calls _ (if ?b then _ else _) => destruct b
      | |- all_calls _ (match ?x with _ => _ end) => destruct x
      | |- all_calls _ ?p => progress (let p' := eval cbv zeta in p in change p with p')
      end ].

Section ReplicatorCalls.

Lemma keys_set_field k v (o : Obj) :
  keys (set_field k v o) = if bool_decide (k ∈ keys o) then keys o else keys o ++ [k].
Proof.
  induction o as [|[k' v'] o IH]; simpl; [done|].
  destruct (String.eqb_spec k k') as [->|Hne]; simpl.
  - rewrite bool_decide_eq_true_2; [done | left].
  - rewrite IH. destruct (bool_decide (k ∈ keys o)) eqn:Hin.
    + apply bool_decide_eq_true in Hin. rewrite bool_decide_eq_true_2; [done | by right].
    + apply bool_decide_eq_false in Hin.
      rewrite bool_decide_eq_false_2; [done|]. rewrite elem_of_cons. tauto.
Qed.

Lemma NoDup_keys_set_field k v (o : Obj) : NoDup (keys o) -> NoDup (keys (set_field k v o)).
Proof.
  intros Hnd. rewrite keys_set_field. case_bool_decide as Hin; [done|].
  apply NoDup_app. split; [done|]. split; [|apply NoDup_singleton].
  intros x Hx ->%list_elem_of_singleton. done.
Qed.

Lemma NoDup_keys_spread (src acc : Obj) : NoDup (keys acc) -> NoDup (keys (spread src acc)).
Proof.
  unfold spread. revert acc. induction src as [|[k v] src IH]; intros acc Hnd; simpl; [done|].
  apply IH. by apply NoDup_keys_set_field.
Qed.

Lemma NoDup_keys_withTag t doc : NoDup (keys (withTag t doc)).
Proof.
  unfold withTag. apply NoDup_keys_set_field, NoDup_keys_spread. constructor.
Qed.

Lemma field_is_withIdAndTag id data :
  field_is SYNCED_FROM FIRESTORE (F2M.withIdAndTag id data) = true.
Proof.
  unfold field_is, F2M.withIdAndTag. rewrite get_field_set_eq. apply String.eqb_refl.
Qed.

Lemma onChange_calls c change : all_calls primary_replicator_call (M2F.onChange c change).
Proof.
  unfold M2F.onChange. all_calls_tac.
  all: split. all: try done. all: apply field_is_withTag.
Qed.

Lemma m2f_initialSyncDoc_calls c d :
  all_calls primary_replicator_call (M2F.initialSyncDoc c d).
Proof.
  unfold M2F.initialSyncDoc. all_calls_tac.
  all: split. all: try done. all: apply field_is_withTag.
Qed.

Lemma syncModelToFirestore_calls c :
  all_calls primary_replicator_call (M2F.syncModelToFirestore c).
Proof.
  unfold M2F.syncModelToFirestore. all_calls_tac.
  all: split. all: try done. all: apply field_is_withTag.
Qed.

Lemma onDocChange_calls c change :
  all_calls secondary_replicator_call (F2M.onDocChange c change).
Proof.
  unfold F2M.onDocChange. all_calls_tac.
  all: split. all: try done. all: simpl.
  all: auto using field_is_withTag, field_is_withIdAndTag, NoDup_keys_withTag.
Qed.

Lemma f2m_initialSyncDoc_calls c d :
  all_calls secondary_replicator_call (F2M.initialSyncDoc c d).
Proof.
  unfold F2M.initialSyncDoc. all_calls_tac.
  all: split. all: try done. all: simpl.
  all: auto using field_is_withTag, field_is_withIdAndTag, NoDup_keys_withTag.
Qed.

Lemma syncFirestoreToMongo_calls c :
  all_calls secondary_replicator_call (F2M.syncFirestoreToMongo c).
Proof.
  unfold F2M.syncFirestoreToMongo. all_calls_tac.
  all: try apply f2m_initialSyncDoc_calls.
  all: split. all: try done. all: simpl.
  all: auto using field_is_withTag, field_is_withIdAndTag, NoDup_keys_withTag.
Qed.

End ReplicatorCalls.

Section OneWay.

Lemma exec_keeps_primary {X : Type} (c : Call X) d :
  writes_primary c = false ->
  mongo (fst (exec c d)) = mongo d /\ nextId (fst (exec c d)) = nextId d.
Proof. destruct c; try done; intros _; simpl; repeat case_match; done. Qed.

Lemma exec_keeps_secondary {X : Type} (c : Call X) d :
  writes_secondary c = false -> fs (fst (exec c d)) = fs d.
Proof.
  destruct c; try done; intros _; simpl;
    unfold mongo_create, mongo_findByIdAndUpdate; repeat case_match; done.
Qed.

Lemma new_are_tagged_refl t f : new_are_tagged t f f.
Proof. intros id doc Hdoc. by left. Qed.

Lemma new_are_tagged_trans t f1 f2 f3 :
  new_are_tagged t f1 f2 -> new_are_tagged t f2 f3 -> new_are_tagged t f1 f3.
Proof.
  intros H12 H23 id doc Hdoc.
  destruct (H23 id doc Hdoc) as [H2 | Htag]; [by apply H12 | by right].
Qed.

Lemma new_are_tagged_insert t f id doc :
  field_is SYNCED_FROM t doc = true -> new_are_tagged t f (<[id := doc]> f).
Proof.
  intros Htag id' doc'. rewrite lookup_insert. case_decide as Hid.
  - intros [= <-]. by right.
  - by left.
Qed.

Lemma new_are_tagged_delete t (f : gmap string Obj) id : new_are_tagged t f (base.delete id f).
Proof.
  intros id' doc'. rewrite lookup_delete. case_decide as Hid; [done | by left].
Qed.



Lemma exec_tags_secondary {X : Type} (c : Call X) d :
  tagged_writes MONGO X c -> new_are_tagged MONGO (fs d) (fs (fst (exec c d))).
Proof.
  destruct c; simpl; intros Htag;
    unfold mongo_create, mongo_findByIdAndUpdate; repeat case_match; simpl;
    auto using new_are_tagged_refl, new_are_tagged_insert, new_are_tagged_delete.
Qed.



Lemma run_keeps_primary {A : Type} (p : Prog A) db :
  all_calls primary_replicator_call p ->
  mongo (after (run p db)) = mongo db /\ nextId (after (run p db)) = nextId db.
Proof.
  intros Hp.
  apply (run_respects primary_replicator_call
           (fun d d' => mongo d' = mongo d /\ nextId d' = nextId d)); try done.
  - intros d1 d2 d3 [-> ->] [-> ->]. done.
  - intros X c d [Hc _]. by apply exec_keeps_primary.
Qed.

Lemma run_keeps_secondary {A : Type} (p : Prog A) db :
  all_calls secondary_replicator_call p -> fs (after (run p db)) = fs db.
Proof.
  intros Hp.
  apply (run_respects secondary_replicator_call (fun d d' => fs d' = fs d)); try done.
  - intros d1 d2 d3 -> ->. done.
  - intros X c d [Hc _]. by apply exec_keeps_secondary.
Qed.

Lemma run_tags_secondary {A : Type} (p : Prog A) db :
  all_calls primary_replicator_call p ->
  new_are_tagged MONGO (fs db) (fs (after (run p db))).
Proof.
  intros Hp.
  apply (run_respects primary_replicator_call
           (fun d d' => new_are_tagged MONGO (fs d) (fs d'))); try done.
  - intros d. apply new_are_tagged_refl.
  - intros d1 d2 d3. apply new_are_tagged_trans.
  - intros d dir. apply new_are_tagged_refl.
  - intros X c d [_ Hc]. by apply exec_tags_secondary.
Qed.


(** X1.  Each replicator writes one way only.  The change handler of the
    primary feed never changes the primary store or its key generator;
    the change handler of the secondary feed and the whole of
    [syncFirestoreToMongo] never change the secondary store.  This holds
    for every event and every state of the stores, failures included. *)
Theorem replicators_write_one_way (c : string) :
  (forall change db,
      mongo (after (run (M2F.onChange c change) db)) = mongo db
      /\ nextId (after (run (M2F.onChange c change) db)) = nextId db)
  /\ (forall change db, fs (after (run (F2M.onDocChange c change) db)) = fs db)
  /\ (forall db, fs (after (run (F2M.syncFirestoreToMongo c) db)) = fs db).
Proof.
  split; [|split].
  - intros change db. apply run_keeps_primary, onChange_calls.
  - intros change db. apply run_keeps_secondary, onDocChange_calls.
  - intros db. apply run_keeps_secondary, syncFirestoreToMongo_calls.
Qed.


End OneWay.

(** ** Failures while handling one event *)

Section Failures.

Lemma run_try_catch_result {A : Type} (p : Prog A) (h : Err -> Prog A) db :
  (forall e d, is_Some (match result (run (h e) d) with inr a => Some a | inl _ => None end)) ->
  exists a, result (run (try_catch p h) db) = inr a.
Proof.
  intros Hh. rewrite run_try_catch.
  destruct (result (run p db)) as [e | a] eqn:Hres; [|by exists a].
  simpl. specialize (Hh e (after (run p db))).
  destruct (result (run (h e) (after (run p db)))) as [e' | a]; [by destruct Hh | by exists a].
Qed.

Lemma onChange_result c change db : result (run (M2F.onChange c change) db) = inr tt.
Proof.
  unfold M2F.onChange.
  match goal with
  | |- result (run (try_catch ?p ?h) db) = _ =>
      destruct (run_try_catch_result p h db) as [[] Hres]; [by eexists | exact Hres]
  end.
Qed.

Lemma onDocChange_result c change db :
  result (run (F2M.onDocChange c change) db) = inr tt.
Proof.
  unfold F2M.onDocChange. cbv zeta.
  destruct (field_is SYNCED_FROM MONGO _); [done|].
  match goal with
  | |- result (run (try_catch ?p ?h) db) = _ =>
      destruct (run_try_catch_result p h db) as [[] Hres]; [by eexists | exact Hres]
  end.
Qed.

Lemma mongo_create_failed doc db db' e :
  mongo_create doc db = (db', inl e) -> mongo db' = mongo db /\ fs db' = fs db.
Proof. unfold mongo_create. repeat case_match; intros [= <- _]; done. Qed.

Lemma mongo_findByIdAndUpdate_failed id upd db db' e :
  mongo_findByIdAndUpdate id upd db = (db', inl e) -> db' = db.
Proof. unfold mongo_findByIdAndUpdate. repeat case_match; intros [= <- _]; done. Qed.

#[local] Arguments MongoToFirestore.cleanDocument : simpl never.
#[local] Arguments FirestoreToMongo.cleanFirestoreDoc : simpl never.
#[local] Arguments withTag : simpl never.
#[local] Arguments F2M.withIdAndTag : simpl never.
#[local] Arguments mongo_create : simpl never.
#[local] Arguments mongo_findByIdAndUpdate : simpl never.
#[local] Arguments castable : simpl never.

Lemma onChange_error_keeps_secondary c change db :
  existsb is_error (console (run (M2F.onChange c change) db)) = true ->
  fs (after (run (M2F.onChange c change) db)) = fs db.
Proof.
  unfold M2F.onChange.
  destruct (M2F.changeId change); simpl; [done|].
  destruct (syncedFrom FIRESTORE _); simpl; [done|].
  destruct (M2F.operationType change); simpl;
    repeat (first [progress unfold lift | case_match]; simpl; try done).
  all: intros; by simplify_eq.
Qed.

Lemma onDocChange_error_keeps_primary c change db :
  existsb is_error (console (run (F2M.onDocChange c change) db)) = true ->
  mongo (after (run (F2M.onDocChange c change) db)) = mongo db.
Proof.
  unfold F2M.onDocChange. cbv zeta.
  destruct (field_is SYNCED_FROM MONGO _); simpl; [done|].
  destruct (F2M.type change); simpl;
    repeat (first [progress unfold lift | case_match]; simpl; try done);
    intros; simplify_eq;
    repeat match goal with
           | H : mongo_create _ _ = (_, inl _) |- _ =>
               apply mongo_create_failed in H as [? ?]
           | H : mongo_findByIdAndUpdate _ _ _ = (_, inl _) |- _ =>
               apply mongo_findByIdAndUpdate_failed in H; subst
           end; done.
Qed.

(** X3.  A failure while handling one event never escapes the handler and
    never leaves a partial write: both change handlers always end
    normally, and whenever a handler has written an error line the store
    it writes to is as it was before the event. *)
Theorem failed_event_changes_nothing (c : string) :
  (forall change db,
      let o := run (M2F.onChange c change) db in
      result o = inr tt
      /\ (existsb is_error (console o) = true -> fs (after o) = fs db))
  /\ (forall change db,
      let o := run (F2M.onDocChange c change) db in
      result o = inr tt
      /\ (existsb is_error (console o) = true -> mongo (after o) = mongo db)).
Proof.
  split; intros change db; cbv zeta; split.
  - apply onChange_result.
  - apply onChange_error_keeps_secondary.
  - apply onDocChange_result.
  - apply onDocChange_error_keeps_primary.
Qed.

End Failures.

(** ** More on the change handlers *)

Section HandlerCases.
Import MongoToFirestore FirestoreToMongo.



#[local] Arguments cleanDocument : simpl never.
#[local] Arguments cleanFirestoreDoc : simpl never.
#[local] Arguments withTag : simpl never.
#[local] Arguments F2M.withIdAndTag : simpl never.
#[local] Arguments castable : simpl never.


(** X5.  An [update] or [replace] event whose record is gone from the
    primary store by the time it is handled, and an [insert] event that
    carries no document, write a secondary document that holds nothing but
    the [mongo] tag. *)
Theorem missing_record_leaves_a_tag_only_document
    (c id : string) (change : M2F.Change) (db : Db) :
  M2F.changeId change = inr id ->
  mongoUp db = true ->
  fsUp db = true ->
  castable id db = true ->
  (M2F.operationType change = M2F.insert /\ M2F.fullDocument change = None)
  \/ ((M2F.operationType change = M2F.update \/ M2F.operationType change = M2F.replace)
      /\ syncedFrom FIRESTORE (M2F.fullDocument change) = false
      /\ mongo db !! id = None) ->
  after (run (M2F.onChange c change) db)
  = set_fs (<[id := [(SYNCED_FROM, VStr MONGO)]]> (fs db)) db.
Proof.
  intros Hid Hmongo Hfs Hcast Hcase. unfold M2F.onChange. rewrite Hid. simpl.
  destruct Hcase as [[-> ->] | (Hop & -> & Hgone)]; simpl.
  - by rewrite Hfs.
  - destruct Hop as [-> | ->]; simpl; rewrite Hmongo, Hcast; unfold mongo_findById;
      rewrite Hgone; simpl; by rewrite Hfs.
Qed.




#[local] Arguments mongo_findByIdAndUpdate : simpl never.



End HandlerCases.

Section PingPong.
Import FirestoreToMongo.


#[local] Arguments field_is : simpl never.

Lemma f2m_initialSyncDoc_echo c d db :
  field_is SYNCED_FROM MONGO (doc_data d) = true ->
  after (run (F2M.initialSyncDoc c d) db) = db.
Proof. intros Htag. unfold F2M.initialSyncDoc. by rewrite Htag. Qed.



End PingPong.

(** ** More on the backfills *)

Section PrimaryBackfillMore.
Import MongoToFirestore.

Lemma mirrored_lookup records (f : gmap string Obj) k :
  mirrored records f !! k
  = match f !! k with
    | Some d => Some d
    | None => mirror_of k <$> (list_to_map records : gmap string Obj) !! k
    end.
Proof.
  unfold mirrored. revert f.
  induction records as [|[k0 f0] records IH]; intros f; simpl.
  - rewrite lookup_empty. by destruct (f !! k).
  - rewrite IH. unfold create_if_absent. destruct (decide (k = k0)) as [->|Hne].
    + rewrite lookup_insert_eq. destruct (f !! k0) as [d|] eqn:Hk0.
      * by rewrite Hk0.
      * by rewrite lookup_insert_eq.
    + rewrite (lookup_insert_ne _ k0 k) by done.
      destruct (f !! k0) as [d|] eqn:Hk0; [done|].
      by rewrite lookup_insert_ne.
Qed.

Lemma mirror_of_tagged key fields :
  exists cleaned,
    cleanDocument (Some (lean key fields)) = inr cleaned
    /\ mirror_of key fields = withTag MONGO cleaned.
Proof.
  destruct (cleanDocument_lean key fields) as [cleaned Hcleaned].
  exists cleaned. split; [done|]. unfold mirror_of. by rewrite Hcleaned.
Qed.

(** X9.  The primary backfill is complete and applies no provenance check:
    with both stores reachable, after [syncModelToFirestore] a key holds
    the secondary document it held before if there was one, the normalized
    record tagged [mongo] if only the primary store had a record under it
    (whatever tag that record carried), and nothing otherwise. *)
Theorem primary_backfill_mirrors_every_record (c : string) (db : Db) :
  mongoUp db = true ->
  fsUp db = true ->
  forall k,
    fs (after (run (M2F.syncModelToFirestore c) db)) !! k
    = match fs db !! k, mongo db !! k with
      | Some d, _ => Some d
      | None, Some fields => Some (mirror_of k fields)
      | None, None => None
      end
    /\ forall fields, exists cleaned,
         cleanDocument (Some (lean k fields)) = inr cleaned
         /\ mirror_of k fields = withTag MONGO cleaned.
Proof.
  intros Hmongo Hfs k. split; [|intros fields; apply mirror_of_tagged].
  rewrite syncModelToFirestore_after, Hmongo, Hfs. simpl.
  rewrite mirrored_lookup, list_to_map_to_list.
  destruct (fs db !! k); [done|]. by destruct (mongo db !! k).
Qed.

End PrimaryBackfillMore.

Section UnreachableDestination.

(** The console of a loop whose body neither throws nor changes the
    stores. *)
Lemma run_for_of_idle {A : Type} (xs : list A) (body : A -> Prog unit) db :
  (forall x, result (run (body x) db) = inr tt /\ after (run (body x) db) = db) ->
  run (for_of xs body) db
  = mkOutcome db (flat_map (fun x => console (run (body x) db)) xs) (inr tt).
Proof.
  intros Hbody. induction xs as [|x xs IH]; simpl; [done|].
  destruct (Hbody x) as [Hres Hafter].
  rewrite run_bind, Hres. simpl. rewrite Hafter, IH. done.
Qed.

Lemma m2f_initialSyncDoc_unreachable c key fields db :
  fsUp db = false ->
  run (M2F.initialSyncDoc c (lean key fields)) db
  = mkOutcome db [mkLog Cross ("Error in initial sync for " ++ c)] (inr tt).
Proof. intros Hdown. unfold M2F.initialSyncDoc. simpl. by rewrite Hdown. Qed.

Lemma syncModelToFirestore_unreachable c db :
  mongoUp db = true ->
  fsUp db = false ->
  run (M2F.syncModelToFirestore c) db
  = mkOutcome (add_listener MongoToFs db)
      ([mkLog Rotate ("Starting MongoDB -> Firestore sync for " ++ c ++ "...");
        mkLog Package ("Found " ++ pretty (size (mongo db)) ++ " existing "
                       ++ c ++ " in MongoDB.")]
       ++ repeat (mkLog Cross ("Error in initial sync for " ++ c)) (size (mongo db))
       ++ [mkLog Check ("Initial sync complete (Mongo -> Firestore) for '" ++ c ++ "'");
           mkLog Check ("MongoDB -> Firestore listener active for '" ++ c ++ "'")])
      (inr tt).
Proof.
  intros Hmongo Hfs. unfold M2F.syncModelToFirestore.
  rewrite run_bind. cbn [say run logged result after console].
  rewrite (run_bind (await MFind)). cbn [await run exec].
  rewrite Hmongo. cbn [run result after console].
  rewrite (run_bind (say _ _)). cbn [say run logged result after console].
  unfold mongo_find. rewrite length_map, length_map_to_list.
  rewrite (run_bind (for_of _ _)).
  rewrite (run_for_of_idle _ (M2F.initialSyncDoc c) db).
  - cbn [result after console run say logged app].
    assert (Hlines : flat_map (fun x => console (run (M2F.initialSyncDoc c x) db))
                       (map (fun kf => lean (fst kf) (snd kf)) (map_to_list (mongo db)))
                     = repeat (mkLog Cross ("Error in initial sync for " ++ c))
                              (size (mongo db))).
    { rewrite <- length_map_to_list.
      induction (map_to_list (mongo db)) as [|[k f] l IH]; [done|].
      cbn [map flat_map fst snd length repeat].
      by rewrite m2f_initialSyncDoc_unreachable, IH. }
    rewrite Hlines. reflexivity.
  - intros x. split; [apply m2f_initialSyncDoc_result|].
    unfold M2F.initialSyncDoc. rewrite run_try_catch.
    destruct (toString (get_field "_id" x)); simpl; [by rewrite Hfs | done].
Qed.

Lemma f2m_initialSyncDoc_unreachable c d db :
  mongoUp db = false -> after (run (F2M.initialSyncDoc c d) db) = db.
Proof.
  intros Hdown. unfold F2M.initialSyncDoc. cbv zeta.
  destruct (field_is SYNCED_FROM MONGO _); simpl; [done|]. by rewrite Hdown.
Qed.

Lemma syncFirestoreToMongo_unreachable c db :
  fsUp db = true ->
  mongoUp db = false ->
  result (run (F2M.syncFirestoreToMongo c) db) = inr tt
  /\ after (run (F2M.syncFirestoreToMongo c) db) = add_listener FsToMongo db.
Proof.
  intros Hfs Hmongo. unfold F2M.syncFirestoreToMongo.
  rewrite run_bind. cbn [say run logged result after console].
  rewrite (run_bind (await FsGetAll)). cbn [await run exec].
  rewrite Hfs. cbn [run result after console].
  rewrite (run_bind (say _ _)). cbn [say run logged result after console].
  rewrite (run_bind (for_of _ _)).
  rewrite (run_for_of_idle _ (F2M.initialSyncDoc c) db); [done|].
  intros d. split; [apply f2m_initialSyncDoc_result | by apply f2m_initialSyncDoc_unreachable].
Qed.

Lemma errors_of_repeat l n :
  is_error l = true -> List.filter is_error (repeat l n) = repeat l n.
Proof. intros Hl. induction n as [|n IH]; simpl; [done|]. by rewrite Hl, IH. Qed.

(** X10.  A backfill whose destination cannot be reached still ends
    normally and still attaches its listener: every record fails on its
    own, is logged and skipped.  [syncModelToFirestore] with the secondary
    store unreachable writes one error line per primary record and changes
    nothing but the subscription, and so does [syncFirestoreToMongo] with
    the primary store unreachable. *)
Theorem backfill_survives_unreachable_destination (c : string) (db : Db) :
  (mongoUp db = true -> fsUp db = false ->
     let o := run (M2F.syncModelToFirestore c) db in
     result o = inr tt
     /\ after o = add_listener MongoToFs db
     /\ length (List.filter is_error (console o)) = size (mongo db))
  /\ (fsUp db = true -> mongoUp db = false ->
      let o := run (F2M.syncFirestoreToMongo c) db in
      result o = inr tt /\ after o = add_listener FsToMongo db).
Proof.
  split.
  - intros Hmongo Hfs. cbv zeta. rewrite syncModelToFirestore_unreachable by done.
    cbn [result after console]. split; [done|]. split; [done|].
    rewrite !List.filter_app, errors_of_repeat by done.
    cbn. rewrite app_nil_r. apply repeat_length.
  - intros Hfs Hmongo. by apply syncFirestoreToMongo_unreachable.
Qed.

End UnreachableDestination.

Section SkipMirrored.
Import FirestoreToMongo.

Lemma syncFirestoreToMongo_all_tagged c db :
  (forall id data, fs db !! id = Some data -> field_is SYNCED_FROM MONGO data = true) ->
  after (run (F2M.syncFirestoreToMongo c) db)
  = if fsUp db then add_listener FsToMongo db else db.
Proof.
  intros Htagged. unfold F2M.syncFirestoreToMongo.
  rewrite run_bind. cbn [say run logged result after console].
  rewrite (run_bind (await FsGetAll)). cbn [await run exec].
  destruct (fsUp db) eqn:Hfs; cbn [run result after console]; [|done].
  rewrite (run_bind (say _ _)). cbn [say run logged result after console].
  rewrite (run_bind (for_of _ _)).
  destruct (run_for_of (fs_docs (fs db)) (F2M.initialSyncDoc c) db
              (f2m_initialSyncDoc_result c)) as [Hafter ->].
  cbn [run say logged result after console]. rewrite Hafter. f_equal.
  assert (Hdocs : forall d, d ∈ fs_docs (fs db) ->
                            field_is SYNCED_FROM MONGO (doc_data d) = true).
  { intros d Hd. apply list_elem_of_In, in_map_iff in Hd as [[id data] [<- Hin]].
    apply list_elem_of_In, elem_of_map_to_list in Hin. by apply (Htagged id). }
  revert Hdocs. generalize (fs_docs (fs db)). intros docs.
  induction docs as [|d docs IH]; intros Hdocs; [done|].
  cbn [fold_left]. rewrite f2m_initialSyncDoc_echo by (apply Hdocs; left).
  apply IH. intros d' Hd'. apply Hdocs. by right.
Qed.

(** X11.  The two backfills compose without undoing each other.  When every
    document of the secondary store is tagged [mongo] (in particular when
    that store is empty), [syncFirestoreToMongo] changes nothing but the
    subscription; and running [syncModelToFirestore] and then
    [syncFirestoreToMongo], the order of server.js, leaves the primary
    store and its key generator exactly as they were. *)
Theorem backfills_compose (c : string) (db : Db) :
  (forall id data, fs db !! id = Some data -> field_is SYNCED_FROM MONGO data = true) ->
  let db1 := after (run (M2F.syncModelToFirestore c) db) in
  let db2 := after (run (F2M.syncFirestoreToMongo c) db1) in
  after (run (F2M.syncFirestoreToMongo c) db)
  = (if fsUp db then add_listener FsToMongo db else db)
  /\ mongo db2 = mongo db
  /\ nextId db2 = nextId db
  /\ fs db2 = fs db1.
Proof.
  intros Htagged. cbv zeta.
  split; [by apply syncFirestoreToMongo_all_tagged|].
  set (db1 := after (run (M2F.syncModelToFirestore c) db)).
  assert (Htagged1 : forall id data,
             fs db1 !! id = Some data -> field_is SYNCED_FROM MONGO data = true).
  { intros id data Hdata.
    destruct (run_tags_secondary (M2F.syncModelToFirestore c) db
                (syncModelToFirestore_calls c) id data Hdata) as [Hold | Htag]; [|done].
    by apply (Htagged id). }
  destruct (run_keeps_primary (M2F.syncModelToFirestore c) db
              (syncModelToFirestore_calls c)) as [Hmongo Hnext].
  rewrite (syncFirestoreToMongo_all_tagged c db1 Htagged1).
  fold db1 in Hmongo, Hnext. by destruct (fsUp db1).
Qed.

End SkipMirrored.

(** ** server.js *)

Section ServerStart.
Import Startup.

Lemma all_calls_any {A : Type} (p : Prog A) : all_calls (fun _ _ => True) p.
Proof. induction p as [a | e | l k IH | d k IH | X c k IH]; simpl; auto. Qed.

(** No program changes whether a store can be reached, and none removes a
    subscription. *)
Lemma run_flags {A : Type} (p : Prog A) db :
  mongoUp (after (run p db)) = mongoUp db
  /\ fsUp (after (run p db)) = fsUp db
  /\ exists l, listeners (after (run p db)) = listeners db ++ l.
Proof.
  apply (run_respects (fun _ _ => True)
           (fun d d' => mongoUp d' = mongoUp d /\ fsUp d' = fsUp d
                        /\ exists l, listeners d' = listeners d ++ l)).
  - intros d. repeat split. exists []. by rewrite app_nil_r.
  - intros d1 d2 d3 (-> & -> & l & ->) (-> & -> & l' & ->).
    repeat split. exists (l ++ l'). by rewrite app_assoc.
  - intros d dir. repeat split. by exists [dir].
  - intros X c d _. destruct (exec_frame c d) as (-> & -> & ->).
    repeat split. exists []. by rewrite app_nil_r.
  - apply all_calls_any.
Qed.

Lemma await_each_flags sync names (w : World) n :
  let w' := fst (fst (await_each sync names w)) in
  mongoUp (w' n) = mongoUp (w n)
  /\ fsUp (w' n) = fsUp (w n)
  /\ exists l, listeners (w' n) = listeners (w n) ++ l.
Proof.
  revert w. induction names as [|name names IH]; intros w; cbv zeta.
  - repeat split. exists []. by rewrite app_nil_r.
  - cbn [await_each]. unfold await_sync.
    set (w1 := at_binding name (after (run (sync name) (w name))) w).
    assert (H1 : mongoUp (w1 n) = mongoUp (w n) /\ fsUp (w1 n) = fsUp (w n)
                 /\ exists l, listeners (w1 n) = listeners (w n) ++ l).
    { unfold w1, at_binding. destruct (String.eqb_spec n name) as [->|_].
      - apply run_flags.
      - repeat split. exists []. by rewrite app_nil_r. }
    destruct (result (run (sync name) (w name))); [exact H1|].
    specialize (IH w1). destruct (await_each sync names w1) as [[w2 ls] r].
    cbn [fst] in *. destruct H1 as (<- & <- & l & Hl).
    destruct IH as (-> & -> & l' & ->).
    repeat split. exists (l ++ l'). by rewrite Hl, app_assoc.
Qed.

Lemma start_with_flags sync failure (w : World) n :
  let w' := fst (start_with sync failure w) in
  mongoUp (w' n) = mongoUp (w n)
  /\ fsUp (w' n) = fsUp (w n)
  /\ exists l, listeners (w' n) = listeners (w n) ++ l.
Proof.
  cbv zeta. pose proof (await_each_flags sync bindings w n) as H. unfold start_with.
  by destruct (await_each sync bindings w) as [[w' ls] [e | r]].
Qed.

Lemma start_with_outside (sync : string -> Prog unit) (dir : Direction)
    (ok : Db -> bool) failure (w : World) n :
  (forall name db,
      if ok db then
        result (run (sync name) db) = inr tt
        /\ listeners (after (run (sync name) db)) = listeners db ++ [dir]
      else result (run (sync name) db) = inl ConnectionError
           /\ after (run (sync name) db) = db) ->
  n ∉ bindings -> fst (start_with sync failure w) n = w n.
Proof.
  intros Hsync Hn.
  assert (Hnd : NoDup bindings) by (apply (bool_decide_unpack _); by vm_compute).
  destruct (await_each_prefix sync dir ok Hsync bindings w Hnd) as [Hout _].
  specialize (Hout n Hn). unfold start_with.
  by destruct (await_each sync bindings w) as [[w' ls] [e | r]].
Qed.

(** X12.  The two directions start independently of each other.  After the
    sync block of server.js, a binding has its secondary-to-primary
    listener whenever the secondary stores of the bindings up to it can be
    reached, whatever happened to the primary-to-secondary start before
    it, and it has its primary-to-secondary listener whenever the primary
    stores of the bindings up to it can be reached.  Collections that are
    not configured are not touched. *)
Theorem sync_directions_start_independently (w : World) (i : nat) (name : string) :
  bindings !! i = Some name ->
  let w' := fst (Server.startSyncServices w) in
  (all_up_to mongoUp bindings w i -> MongoToFs ∈ listeners (w' name))
  /\ (all_up_to fsUp bindings w i -> FsToMongo ∈ listeners (w' name))
  /\ (forall n, n ∉ bindings -> w' n = w n).
Proof.
  intros Hname. cbv zeta. unfold Server.startSyncServices.
  destruct (startMongoToFirestoreSync w) as [w1 ls1] eqn:H1.
  destruct (startFirestoreToMongoSync w1) as [w2 ls2] eqn:H2.
  cbn [fst].
  assert (Hw1 : w1 = fst (startMongoToFirestoreSync w)) by (by rewrite H1).
  assert (Hw2 : w2 = fst (startFirestoreToMongoSync w1)) by (by rewrite H2).
  destruct (start_with_prefix M2F.syncModelToFirestore MongoToFs mongoUp
              "Failed to start Mongo->Firestore sync"
              syncModelToFirestore_outcome w i name Hname) as [Hm _].
  destruct (start_with_prefix F2M.syncFirestoreToMongo FsToMongo fsUp
              "Failed to start Firestore->Mongo sync"
              syncFirestoreToMongo_outcome w1 i name Hname) as [Hf _].
  fold startMongoToFirestoreSync in Hm. fold startFirestoreToMongoSync in Hf.
  rewrite <- Hw1 in Hm. rewrite <- Hw2 in Hf.
  split; [|split].
  - intros Hall.
    destruct (start_with_flags F2M.syncFirestoreToMongo
                "Failed to start Firestore->Mongo sync" w1 name) as (_ & _ & l & Hl).
    fold startFirestoreToMongoSync in Hl. rewrite <- Hw2 in Hl.
    rewrite Hl, (Hm Hall). set_solver.
  - intros Hall. rewrite Hf; [set_solver|].
    intros j n Hj Hn.
    destruct (start_with_flags M2F.syncModelToFirestore
                "Failed to start Mongo->Firestore sync" w n) as (_ & Hfs & _).
    fold startMongoToFirestoreSync in Hfs. rewrite <- Hw1 in Hfs.
    rewrite Hfs. by apply (Hall j).
  - intros n Hn. rewrite Hw2, Hw1. unfold startFirestoreToMongoSync, startMongoToFirestoreSync.
    rewrite (start_with_outside _ FsToMongo fsUp _ _ n syncFirestoreToMongo_outcome Hn).
    by rewrite (start_with_outside _ MongoToFs mongoUp _ _ n syncModelToFirestore_outcome Hn).
Qed.

End ServerStart.

(** ** More on the normalizers *)

Section ValuesOfObjects.

Variable P : value -> bool.

Lemma forallb_set_field k v (o : Obj) :
  P v = true -> forallb (fun kv => P (snd kv)) o = true ->
  forallb (fun kv => P (snd kv)) (set_field k v o) = true.
Proof.
  intros Hv. induction o as [|[k' v'] o IH]; simpl; [by rewrite Hv|].
  rewrite andb_true_iff. intros [Hv' Ho].
  destruct (String.eqb k k'); simpl; rewrite ?Hv, ?Hv'; auto.
Qed.

Lemma forallb_delete_field k (o : Obj) :
  forallb (fun kv => P (snd kv)) o = true ->
  forallb (fun kv => P (snd kv)) (delete_field k o) = true.
Proof.
  induction o as [|[k' v'] o IH]; simpl; [done|].
  rewrite andb_true_iff. intros [Hv' Ho].
  destruct (String.eqb k k'); simpl; rewrite ?Hv'; auto.
Qed.

End ValuesOfObjects.

Section NormalizerMore.
Import MongoToFirestore.

Lemma keys_map_cleanEntry entries : keys (map cleanEntry entries) = keys entries.
Proof. unfold keys. rewrite map_map. reflexivity. Qed.

(** [cleanObject] keeps objects well formed. *)
Lemma cleanObject_well_formed v : well_formed v = true -> well_formed (cleanObject v) = true.
Proof.
  induction v as [| b | n | s | h | ms | items IH | entries IH] using value_nested_ind;
    intros Hwf; try done.
  - apply well_formed_VArr in Hwf. simpl.
    induction IH as [|x items Hx _ IHitems]; simpl; [done|].
    inversion Hwf; subst. rewrite andb_true_iff. auto.
  - pose proof Hwf as [Hnd Hall]%well_formed_VObj.
    rewrite cleanObject_wf_VObj by done. simpl.
    rewrite andb_true_iff, bool_decide_eq_true. split.
    + by rewrite keys_map_cleanEntry in *.
    + clear Hnd Hwf. induction IH as [|[k x] entries Hx _ IHentries]; simpl; [done|].
      inversion Hall; subst. rewrite andb_true_iff. auto.
Qed.

(** [cleanObject] changes nothing but ObjectIds. *)
Lemma cleanObject_without_ObjectId v :
  well_formed v = true -> contains_ObjectId v = false -> cleanObject v = v.
Proof.
  induction v as [| b | n | s | h | ms | items IH | entries IH] using value_nested_ind;
    intros Hwf Hno; try done.
  - apply well_formed_VArr in Hwf. simpl in *. f_equal.
    induction IH as [|x items Hx _ IHitems]; simpl in *; [done|].
    inversion Hwf; subst. apply orb_false_iff in Hno as [Hno1 Hno2].
    f_equal; auto.
  - pose proof Hwf as [Hnd Hall]%well_formed_VObj.
    rewrite cleanObject_wf_VObj by done. f_equal. simpl in Hno. clear Hnd Hwf.
    induction IH as [|[k x] entries Hx _ IHentries]; simpl in *; [done|].
    inversion Hall; subst. apply orb_false_iff in Hno as [Hno1 Hno2].
    f_equal; [|auto]. unfold cleanEntry. simpl. f_equal. auto.
Qed.

(** X13.  The normalizer towards Firestore only replaces ObjectIds: a value
    in which no ObjectId occurs is returned as it is, and normalizing twice
    is the same as normalizing once. *)
Theorem cleanObject_only_replaces_ObjectIds (v : value) :
  well_formed v = true ->
  (contains_ObjectId v = false -> cleanObject v = v)
  /\ cleanObject (cleanObject v) = cleanObject v.
Proof.
  intros Hwf. split; [by apply cleanObject_without_ObjectId|].
  apply cleanObject_without_ObjectId.
  - by apply cleanObject_well_formed.
  - by apply cleanObject_no_ObjectId.
Qed.

End NormalizerMore.

Section BackNormalizer.
Import FirestoreToMongo.

(** The two special cases of the loop, for [_id] and [createdBy] holding a
    string, assign what the general case assigns. *)
Lemma assignCleaned_general key v cleaned :
  assignCleaned cleanObject key v cleaned = set_field key (cleanObject v) cleaned.
Proof.
  unfold assignCleaned.
  destruct v; cbn [is_string]; rewrite ?andb_false_r; try done.
  by destruct (String.eqb key "_id"), (String.eqb key "createdBy").
Qed.

Lemma F2M_cleanObject_fold entries :
  cleanObject (VObj entries)
  = VObj (fold_left (fun cleaned kv => set_field (fst kv) (cleanObject (snd kv)) cleaned)
                    entries []).
Proof.
  rewrite F2M_cleanObject_VObj. f_equal. generalize (@nil (string * value)).
  induction entries as [|[k v] entries IH]; intros acc; simpl; [done|].
  by rewrite assignCleaned_general, IH.
Qed.

Lemma F2M_cleanObject_map entries :
  NoDup (keys entries) ->
  cleanObject (VObj entries) = VObj (map (fun kv => (fst kv, cleanObject (snd kv))) entries).
Proof.
  intros Hnd. rewrite F2M_cleanObject_fold. f_equal.
  assert (Hgen : forall acc, NoDup (keys acc ++ keys entries) ->
            fold_left (fun cleaned kv => set_field (fst kv) (cleanObject (snd kv)) cleaned)
                      entries acc
            = acc ++ map (fun kv => (fst kv, cleanObject (snd kv))) entries).
  { clear Hnd. induction entries as [|[k v] entries IH]; intros acc Hnd; simpl.
    - by rewrite app_nil_r.
    - rewrite set_field_fresh.
      + rewrite IH; [by rewrite <- app_assoc|].
        unfold keys in *. rewrite map_app. simpl in *. by rewrite <- app_assoc.
      + simpl in Hnd. apply NoDup_app in Hnd as (_ & Hdisj & _).
        intros Hin. apply (Hdisj _ Hin). left. }
  by apply (Hgen []).
Qed.

(** On values without timestamps the back normalizer is the identity. *)
Lemma F2M_cleanObject_plain v :
  well_formed v = true -> plain v = true -> cleanObject v = v.
Proof.
  induction v as [| b | n | s | h | ms | items IH | entries IH] using value_nested_ind;
    intros Hwf Hplain; try done.
  - apply well_formed_VArr in Hwf. simpl in *. f_equal.
    induction IH as [|x items Hx _ IHitems]; simpl in *; [done|].
    inversion Hwf; subst. apply andb_true_iff in Hplain as [Hp1 Hp2].
    f_equal; auto.
  - pose proof Hwf as [Hnd Hall]%well_formed_VObj.
    rewrite F2M_cleanObject_map by done. f_equal. simpl in Hplain. clear Hnd Hwf.
    induction IH as [|[k x] entries Hx _ IHentries]; simpl in *; [done|].
    inversion Hall; subst. apply andb_true_iff in Hplain as [Hp1 Hp2].
    f_equal; [|auto]. f_equal. auto.
Qed.

Lemma cleanFirestoreDoc_no_id d : get_field "id" (cleanFirestoreDoc d) = None.
Proof.
  unfold cleanFirestoreDoc. rewrite F2M_cleanObject_fold. simpl.
  assert (Hk : "id" ∉ keys (delete_field "id" (doc_data d))).
  { apply get_field_None, get_field_delete_eq. }
  revert Hk. generalize (delete_field "id" (doc_data d)). intros es.
  assert (Hacc : get_field "id" (@nil (string * value)) = None) by done.
  revert Hacc. generalize (@nil (string * value)).
  induction es as [|[key v] es IH]; intros acc Hacc; simpl; [done|].
  rewrite not_elem_of_cons. intros [Hne Hnin].
  apply IH; [|done]. by rewrite get_field_set_ne.
Qed.

(** X14.  [cleanFirestoreDoc] converts nothing back.  Its result never has
    a top-level [id]; and on data with distinct property names in which no
    timestamp occurs it is exactly the data without its [id]: strings that
    stand for identifiers stay strings, at every depth. *)
Theorem cleanFirestoreDoc_returns_the_data (d : DocSnap) :
  get_field "id" (cleanFirestoreDoc d) = None
  /\ (well_formed (VObj (doc_data d)) = true ->
      plain (VObj (doc_data d)) = true ->
      cleanFirestoreDoc d = delete_field "id" (doc_data d)).
Proof.
  split; [apply cleanFirestoreDoc_no_id|].
  intros Hwf Hplain. unfold cleanFirestoreDoc.
  rewrite F2M_cleanObject_plain; [done | |].
  - by apply well_formed_delete_field.
  - simpl in *. by apply forallb_delete_field.
Qed.

End BackNormalizer.

Section RoundTrip.
Import MongoToFirestore FirestoreToMongo.

Lemma cleanObject_plain v :
  well_formed v = true -> dateless v = true -> plain (MongoToFirestore.cleanObject v) = true.
Proof.
  induction v as [| b | n | s | h | ms | items IH | entries IH] using value_nested_ind;
    intros Hwf Hdl; try done.
  - apply well_formed_VArr in Hwf. simpl in *.
    induction IH as [|x items Hx _ IHitems]; simpl in *; [done|].
    inversion Hwf; subst. apply andb_true_iff in Hdl as [Hd1 Hd2].
    rewrite andb_true_iff. auto.
  - pose proof Hwf as [Hnd Hall]%well_formed_VObj.
    rewrite cleanObject_wf_VObj by done. simpl in *. clear Hnd Hwf.
    induction IH as [|[k x] entries Hx _ IHentries]; simpl in *; [done|].
    inversion Hall; subst. apply andb_true_iff in Hdl as [Hd1 Hd2].
    rewrite andb_true_iff. auto.
Qed.

Lemma withTag_fresh t (o : Obj) :
  NoDup (keys o) -> withTag t o = set_field SYNCED_FROM (VStr t) o.
Proof. intros Hnd. unfold withTag. by rewrite (spread_fresh o []). Qed.

Lemma values_map_cleanEntry (P : value -> bool) entries :
  Forall (fun kv => P (MongoToFirestore.cleanObject (snd kv)) = true) entries ->
  forallb (fun kv => P (snd kv)) (map cleanEntry entries) = true.
Proof.
  induction 1 as [|[k v] entries Hv _ IH]; simpl; [done|].
  rewrite andb_true_iff. auto.
Qed.

(** X15.  Round trip of a record through both normalizers.  For a primary
    record with distinct property names, no [id] of its own and no Date
    inside, what [cleanFirestoreDoc] makes of the secondary document
    written for it is the record without [_id] and [__v], its ObjectIds
    replaced by their strings, tagged [mongo]: nothing else is lost or
    changed, and no reference gets its ObjectId type back. *)
Theorem normalizers_round_trip (d : Obj) (s : string) :
  well_formed (VObj d) = true ->
  toString (get_field "_id" d) = Some s ->
  get_field "id" d = None ->
  dateless (VObj d) = true ->
  exists out,
    cleanDocument (Some d) = inr out
    /\ cleanFirestoreDoc (mkDoc s (withTag MONGO out))
       = withTag MONGO (map cleanEntry (delete_field "__v" (delete_field "_id" d))).
Proof.
  intros Hwf Hid Hno Hdl.
  set (rest := delete_field "__v" (delete_field "_id" d)).
  exists (("id", VStr s) :: map cleanEntry rest).
  split; [by apply cleanDocument_shape|].
  assert (Hrest : well_formed (VObj rest) = true)
    by (by do 2 apply well_formed_delete_field).
  pose proof Hrest as [Hnd Hall]%well_formed_VObj.
  assert (Hdlrest : forallb (fun kv => dateless (snd kv)) rest = true)
    by (by do 2 apply forallb_delete_field).
  assert (Hfresh : "id" ∉ keys (map cleanEntry rest)).
  { rewrite keys_map_cleanEntry. apply get_field_None. unfold rest.
    by rewrite !get_field_delete_ne. }
  assert (Hnd' : NoDup (keys (map cleanEntry rest))) by (by rewrite keys_map_cleanEntry).
  rewrite (withTag_fresh MONGO (("id", VStr s) :: map cleanEntry rest))
    by (simpl; by apply NoDup_cons).
  change (set_field SYNCED_FROM (VStr MONGO) (("id", VStr s) :: map cleanEntry rest))
    with (("id", VStr s) :: set_field SYNCED_FROM (VStr MONGO) (map cleanEntry rest)).
  rewrite <- (withTag_fresh MONGO (map cleanEntry rest)) by done.
  unfold cleanFirestoreDoc.
  change (delete_field "id" (doc_data (mkDoc s (("id", VStr s) :: withTag MONGO (map cleanEntry rest)))))
    with (delete_field "id" (withTag MONGO (map cleanEntry rest))).
  rewrite delete_field_absent
    by (apply get_field_None, get_field_withTag_ne; [done | by apply get_field_None]).
  rewrite F2M_cleanObject_plain; [done | |].
  - simpl. rewrite andb_true_iff, bool_decide_eq_true. split; [apply NoDup_keys_withTag|].
    rewrite withTag_fresh by done. apply forallb_set_field; [done|].
    apply values_map_cleanEntry.
    rewrite Forall_forall in *. intros kv Hkv. by apply cleanObject_well_formed, Hall.
  - simpl. rewrite withTag_fresh by done. apply forallb_set_field; [done|].
    apply values_map_cleanEntry.
    rewrite forallb_forall in Hdlrest. rewrite Forall_forall in *.
    intros kv Hkv. apply cleanObject_plain; [by apply Hall|].
    apply Hdlrest. by apply list_elem_of_In.
Qed.

End RoundTrip.

(** * Instances of the further properties *)

Section FurtherInstances.
Import MongoToFirestore FirestoreToMongo Startup Sample SampleWorld Sample2.

Lemma failed_event_changes_nothing_witness :
  (let o := run (M2F.onChange "students" insert_bob) secondary_down in
   result o = inr tt /\ fs (after o) = fs secondary_down)
  /\ (let o := run (F2M.onDocChange "students" added_bob) primary_down in
      result o = inr tt /\ mongo (after o) = mongo primary_down).
Proof.
  destruct (failed_event_changes_nothing "students") as [Hprimary Hsecondary].
  destruct (Hprimary insert_bob secondary_down) as [Hp1 Hp2].
  destruct (Hsecondary added_bob primary_down) as [Hs1 Hs2].
  split; (split; [assumption|]).
  - apply Hp2. vm_compute. reflexivity.
  - apply Hs2. vm_compute. reflexivity.
Defined.


Lemma missing_record_leaves_a_tag_only_document_witness :
  after (run (M2F.onChange "students" update_event) empty_db)
  = set_fs (<[key_a := [(SYNCED_FROM, VStr MONGO)]]> (fs empty_db)) empty_db.
Proof.
  apply (missing_record_leaves_a_tag_only_document "students" key_a update_event empty_db);
    try (vm_compute; reflexivity).
  right. split; [left; reflexivity|]. split; vm_compute; reflexivity.
Defined.




Lemma primary_backfill_mirrors_every_record_witness :
  fs (after (run (M2F.syncModelToFirestore "students") ann_in_mongo)) !! key_a
  = Some (mirror_of key_a ann).
Proof.
  destruct (primary_backfill_mirrors_every_record "students" ann_in_mongo
              eq_refl eq_refl key_a) as [H _].
  exact H.
Defined.

Lemma backfill_survives_unreachable_destination_witness :
  (let o := run (M2F.syncModelToFirestore "students") secondary_down in
   result o = inr tt
   /\ after o = add_listener MongoToFs secondary_down
   /\ length (List.filter is_error (console o)) = size (mongo secondary_down))
  /\ (let o := run (F2M.syncFirestoreToMongo "students") primary_down in
      result o = inr tt /\ after o = add_listener FsToMongo primary_down).
Proof.
  split.
  - apply (backfill_survives_unreachable_destination "students" secondary_down);
      reflexivity.
  - apply (backfill_survives_unreachable_destination "students" primary_down);
      reflexivity.
Defined.

Lemma backfills_compose_witness :
  let db1 := after (run (M2F.syncModelToFirestore "students") ann_in_both) in
  let db2 := after (run (F2M.syncFirestoreToMongo "students") db1) in
  after (run (F2M.syncFirestoreToMongo "students") ann_in_both)
  = add_listener FsToMongo ann_in_both
  /\ mongo db2 = mongo ann_in_both
  /\ nextId db2 = nextId ann_in_both
  /\ fs db2 = fs db1.
Proof.
  apply (backfills_compose "students" ann_in_both).
  intros id data.
  change (fs ann_in_both)
    with (<[key_a := [("id", VStr key_a); ("firstName", VStr "Ann");
                      ("_syncedFrom", VStr "mongo")]]> (∅ : gmap string Obj)).
  destruct (decide (id = key_a)) as [->|Hne].
  - rewrite lookup_insert_eq. intros H. injection H as <-. reflexivity.
  - rewrite lookup_insert_ne by done. rewrite lookup_empty. intros H. discriminate H.
Defined.

Lemma sync_directions_start_independently_witness :
  FsToMongo ∈ listeners (fst (Server.startSyncServices students_down) "tests")
  /\ fst (Server.startSyncServices students_down) "teachers" = students_down "teachers".
Proof.
  destruct (sync_directions_start_independently students_down 1 "tests" eq_refl)
    as (_ & Hsecondary & Houtside).
  split.
  - apply Hsecondary. intros j n Hj Hn.
    destruct j as [|[|j]]; [| |lia]; injection Hn as <-; reflexivity.
  - apply Houtside. unfold bindings. intros H.
    repeat (apply elem_of_cons in H as [H|H]; [discriminate H|]).
    by apply elem_of_nil in H.
Defined.

Lemma cleanObject_only_replaces_ObjectIds_witness :
  MongoToFirestore.cleanObject (VObj bob) = VObj bob
  /\ MongoToFirestore.cleanObject (MongoToFirestore.cleanObject (VObj enrolled))
     = MongoToFirestore.cleanObject (VObj enrolled).
Proof.
  destruct (cleanObject_only_replaces_ObjectIds (VObj bob)) as [Hbob _];
    [vm_compute; reflexivity|].
  destruct (cleanObject_only_replaces_ObjectIds (VObj enrolled)) as [_ Henrolled];
    [vm_compute; reflexivity|].
  split; [apply Hbob; vm_compute; reflexivity | exact Henrolled].
Defined.

Lemma cleanFirestoreDoc_returns_the_data_witness :
  cleanFirestoreDoc foreign_doc = [("firstName", VStr "Tia")].
Proof.
  destruct (cleanFirestoreDoc_returns_the_data foreign_doc) as [_ H].
  apply H; vm_compute; reflexivity.
Defined.

Lemma normalizers_round_trip_witness :
  exists out,
    cleanDocument (Some referenced) = inr out
    /\ cleanFirestoreDoc (mkDoc key_a (withTag MONGO out))
       = withTag MONGO
           [("firstName", VStr "Ann"); ("createdBy", VStr key_b);
            ("attempts", VArr [VStr key_b; VNum 3])].
Proof.
  apply (normalizers_round_trip referenced key_a); vm_compute; reflexivity.
Defined.

End FurtherInstances.
